(** * docker_network_collector: a shallow embedding and its properties

    The development follows [docker_network_collector.py] function by
    function.  Python dictionaries keep their insertion order, and the
    collector depends on it (the [eth<N>] index is the position of a network
    in a dictionary), so a dictionary is an association list with Python's
    assignment semantics.  The only order-insensitive store of the program,
    the [_metrics] table of the Prometheus gauge, is a [gmap].

    Printing, the Docker daemon, the InfluxDB write API and the sleep between
    two polls are effects on an explicit [world]; exceptions are the [Raise]
    outcome of a small state-and-exception monad, and the [while True] loops
    run on fuel. *)

From Stdlib Require Import Ascii.
From stdpp Require Import base option list strings pretty gmap.

(** ** Python values and exceptions *)

(** The scalar values that travel through [**kwargs]: [None], an [int] (the
    port given to [--prometheus]) or a [str] (an environment variable). *)
Inductive value :=
| VNone
| VInt (z : Z)
| VStr (s : string).

#[global] Instance value_eq_dec : EqDecision value.
Proof. solve_decision. Defined.

(** [str(v)], as an f-string renders a value. *)
Definition py_str (v : value) : string :=
  match v with
  | VNone => "None"
  | VInt z => pretty z
  | VStr s => s
  end.

(** [str(x)] of an optional string ([x] is a [str] or [None]). *)
Definition opt_str (o : option string) : string :=
  match o with
  | Some s => s
  | None => "None"
  end.

(** Truthiness of a value, as [if v:] tests it. *)
Definition truthy (v : value) : bool :=
  match v with
  | VNone => false
  | VInt z => negb (Z.eqb z 0)
  | VStr s => negb (String.eqb s EmptyString)
  end.

(** The exception classes the program can meet.  [APIError] is
    [docker.errors.APIError], the only class the resolver catches;
    [ConnectionError] is [requests.exceptions.ConnectionError], what the
    Docker client raises when the daemon cannot be reached, and is not a
    subclass of [APIError].  Each carries its [str()] rendering. *)
Inductive exn :=
| APIError (msg : string)
| ConnectionError (msg : string)
| ImportError (msg : string)
| KeyError (key : string)
| TypeError (msg : string)
| OSError (msg : string)
| WriteError (msg : string)
| SystemExit (code : Z).

#[global] Instance exn_eq_dec : EqDecision exn.
Proof. solve_decision. Defined.

Definition is_ImportError (e : exn) : bool :=
  match e with ImportError _ => true | _ => false end.

Definition is_APIError (e : exn) : bool :=
  match e with APIError _ => true | _ => false end.

(** ** Ordered dictionaries *)

Module Dict.

Definition t (V : Type) : Type := list (string * V).

Definition empty {V} : t V := [].

(** [d.get(k)] *)
Fixpoint get {V} (k : string) (d : t V) : option V :=
  match d with
  | [] => None
  | (k', v) :: d' => if decide (k' = k) then Some v else get k d'
  end.

(** [d[k] = v]: an existing key keeps its position, a new key goes last. *)
Fixpoint set {V} (k : string) (v : V) (d : t V) : t V :=
  match d with
  | [] => [(k, v)]
  | (k', v') :: d' =>
      if decide (k' = k) then (k, v) :: d' else (k', v') :: set k v d'
  end.

(** [{k: v for k, v in items}] *)
Definition of_items {V} (items : list (string * V)) : t V :=
  fold_left (fun d kv => set kv.1 kv.2 d) items empty.

Definition keys {V} (d : t V) : list string := d.*1.

Definition values {V} (d : t V) : list V := d.*2.

(** [k in d] *)
Definition mem {V} (k : string) (d : t V) : bool := bool_decide (k ∈ keys d).

(** A list of items is the content of a real dictionary when its keys are
    pairwise distinct. *)
Definition wf {V} (d : t V) : Prop := NoDup (keys d).

End Dict.

(** ** The Docker daemon's answer *)

(** One entry of [NetworkSettings.Networks]: the connection metadata of one
    network, a dictionary of strings ([IPAddress], [MacAddress], ...). *)
Definition net_info : Type := Dict.t string.

Record network_settings := {
  Networks : option (Dict.t net_info)
}.

Record container := {
  name : string;
  NetworkSettings : option network_settings
}.

(** [container.attrs.get("NetworkSettings", {}).get("Networks", {})] *)
Definition networks_info (c : container) : Dict.t net_info :=
  match NetworkSettings c with
  | None => Dict.empty
  | Some ns => default Dict.empty (Networks ns)
  end.

(** ** The inventory *)

(** The innermost dictionary of the result: always the same three keys. *)
Record attachment := {
  eth_interface : string;
  ip_address : option string;
  mac_address : option string
}.

#[global] Instance attachment_eq_dec : EqDecision attachment.
Proof. solve_decision. Defined.

Definition inventory : Type := Dict.t (Dict.t attachment).

(** ** InfluxDB points and Prometheus label tuples *)

Record point := {
  measurement : string;
  tags : list (string * string);
  fields : list (string * option string)
}.

#[global] Instance point_eq_dec : EqDecision point.
Proof. solve_decision. Defined.

Record write_request := {
  wr_bucket : value;
  wr_org : value;
  wr_record : point
}.

#[global] Instance write_request_eq_dec : EqDecision write_request.
Proof. solve_decision. Defined.

(** The label values of one gauge child, in the order of the gauge's label
    names: container_name, network_name, eth_interface, ip_address,
    mac_address.  [prometheus_client] stores [str(v)] of every value. *)
Definition labelvalues : Type := string * string * string * string * string.

(** ** The world *)

Record world := {
  (** what [client.containers.list()] answers at its n-th call *)
  docker_list : nat -> exn + list container;
  (** calls of [client.containers.list()] made so far *)
  polls : nat;
  (** the arguments of the [print] calls, oldest first *)
  stdout : list string;
  (** seconds spent in [time.sleep] *)
  slept : nat;
  (** whether [prometheus_client] and [influxdb_client] can be imported *)
  has_prometheus_client : bool;
  has_influxdb_client : bool;
  (** the exception of [start_http_server], if the port cannot be bound *)
  http_bind_error : option exn;
  (** the port the metrics endpoint listens on *)
  http_port : option value;
  (** [Gauge._metrics]: the children of the gauge and their values *)
  metrics : gmap labelvalues Z;
  (** the exception the n-th [write_api.write] call raises, if any *)
  influx_write : nat -> option exn;
  (** the write calls attempted so far, oldest first *)
  written : list write_request
}.

Definition set_polls (n : nat) (w : world) : world :=
  {| docker_list := docker_list w; polls := n; stdout := stdout w;
     slept := slept w; has_prometheus_client := has_prometheus_client w;
     has_influxdb_client := has_influxdb_client w;
     http_bind_error := http_bind_error w; http_port := http_port w;
     metrics := metrics w; influx_write := influx_write w;
     written := written w |}.

Definition set_stdout (out : list string) (w : world) : world :=
  {| docker_list := docker_list w; polls := polls w; stdout := out;
     slept := slept w; has_prometheus_client := has_prometheus_client w;
     has_influxdb_client := has_influxdb_client w;
     http_bind_error := http_bind_error w; http_port := http_port w;
     metrics := metrics w; influx_write := influx_write w;
     written := written w |}.

Definition set_slept (n : nat) (w : world) : world :=
  {| docker_list := docker_list w; polls := polls w; stdout := stdout w;
     slept := n; has_prometheus_client := has_prometheus_client w;
     has_influxdb_client := has_influxdb_client w;
     http_bind_error := http_bind_error w; http_port := http_port w;
     metrics := metrics w; influx_write := influx_write w;
     written := written w |}.

Definition set_http_port (p : option value) (w : world) : world :=
  {| docker_list := docker_list w; polls := polls w; stdout := stdout w;
     slept := slept w; has_prometheus_client := has_prometheus_client w;
     has_influxdb_client := has_influxdb_client w;
     http_bind_error := http_bind_error w; http_port := p;
     metrics := metrics w; influx_write := influx_write w;
     written := written w |}.

Definition set_metrics (m : gmap labelvalues Z) (w : world) : world :=
  {| docker_list := docker_list w; polls := polls w; stdout := stdout w;
     slept := slept w; has_prometheus_client := has_prometheus_client w;
     has_influxdb_client := has_influxdb_client w;
     http_bind_error := http_bind_error w; http_port := http_port w;
     metrics := m; influx_write := influx_write w;
     written := written w |}.

Definition set_written (l : list write_request) (w : world) : world :=
  {| docker_list := docker_list w; polls := polls w; stdout := stdout w;
     slept := slept w; has_prometheus_client := has_prometheus_client w;
     has_influxdb_client := has_influxdb_client w;
     http_bind_error := http_bind_error w; http_port := http_port w;
     metrics := metrics w; influx_write := influx_write w;
     written := l |}.

(** ** The monad of the program: state and exceptions, loops on fuel *)

(** [Ok] is a normal return, [Raise] an exception on its way up, and
    [OutOfFuel] a [while True] loop that is still running when the fuel of the
    model is spent.  No handler catches [OutOfFuel]. *)
Inductive result (A : Type) :=
| Ok (a : A)
| Raise (e : exn)
| OutOfFuel.

Arguments Ok {A} a.
Arguments Raise {A} e.
Arguments OutOfFuel {A}.

Definition M (A : Type) : Type := world -> result A * world.

#[global] Instance M_ret : MRet M := fun A a w => (Ok a, w).

#[global] Instance M_bind : MBind M := fun A B k m w =>
  match m w with
  | (Ok a, w') => k a w'
  | (Raise e, w') => (Raise e, w')
  | (OutOfFuel, w') => (OutOfFuel, w')
  end.

Definition raise {A} (e : exn) : M A := fun w => (Raise e, w).

(** [try: body except <class>: handler]; [catches e] says whether [e] is an
    instance of the class. *)
Definition try_except {A} (body : M A) (catches : exn -> bool)
    (handler : exn -> M A) : M A :=
  fun w =>
    match body w with
    | (Raise e, w') => if catches e then handler e w' else (Raise e, w')
    | r => r
    end.

(** [for x in xs: body x] *)
Fixpoint for_each {A} (xs : list A) (body : A -> M unit) : M unit :=
  match xs with
  | [] => mret tt
  | x :: xs' => body x ;; for_each xs' body
  end.

(** [while True: body], cut after [fuel] rounds. *)
Fixpoint while_true (fuel : nat) (body : M unit) : M unit :=
  match fuel with
  | 0 => fun w => (OutOfFuel, w)
  | S n => body ;; while_true n body
  end.

(** ** Primitive effects *)

Definition print (line : string) : M unit :=
  fun w => (Ok tt, set_stdout (stdout w ++ [line]) w).

Definition sleep (seconds : nat) : M unit :=
  fun w => (Ok tt, set_slept (slept w + seconds) w).

(** [sys.exit(code)] raises [SystemExit]. *)
Definition sys_exit {A} (code : Z) : M A := raise (SystemExit code).

(** [self.client.containers.list()] *)
Definition containers_list : M (list container) :=
  fun w =>
    let w' := set_polls (S (polls w)) w in
    match docker_list w (polls w) with
    | inl e => (Raise e, w')
    | inr cs => (Ok cs, w')
    end.

(** [from <module> import ...] *)
Definition import_module (installed : world -> bool) (module : string)
    : M unit :=
  fun w =>
    if installed w then (Ok tt, w)
    else (Raise (ImportError ("No module named '" +:+ module +:+ "'")), w).

(** [start_http_server(port)] *)
Definition start_http_server (port : value) : M unit :=
  fun w =>
    match http_bind_error w with
    | Some e => (Raise e, w)
    | None => (Ok tt, set_http_port (Some port) w)
    end.

(** [gauge._metrics.clear()] *)
Definition metrics_clear : M unit :=
  fun w => (Ok tt, set_metrics ∅ w).

(** [gauge.labels(...).set(v)]: the child of these label values is created
    if the table does not have it, and its value becomes [v]. *)
Definition gauge_labels_set (lv : labelvalues) (v : Z) : M unit :=
  fun w => (Ok tt, set_metrics (<[lv := v]> (metrics w)) w).

(** [write_api.write(bucket=..., org=..., record=...)], synchronous: the call
    is recorded, then it returns or raises as the backend decides. *)
Definition write_api_write (bucket org : value) (record : point) : M unit :=
  fun w =>
    let req := {| wr_bucket := bucket; wr_org := org; wr_record := record |} in
    let w' := set_written (written w ++ [req]) w in
    match influx_write w (length (written w)) with
    | Some e => (Raise e, w')
    | None => (Ok tt, w')
    end.

(** [str(e)] *)
Definition exn_str (e : exn) : string :=
  match e with
  | APIError m | ConnectionError m | ImportError m | TypeError m
  | OSError m | WriteError m => m
  | KeyError k => "'" +:+ k +:+ "'"
  | SystemExit c => pretty c
  end.

(** ** class DockerNetworkCollector *)

(** The attributes of the object.  [self.client] is the handle on the Docker
    daemon, which the [world] stands for. *)
Record collector := {
  network_names : list string;
  mode : string;
  prometheus_port : value;
  influx_config : option (Dict.t value)
}.

(** [__init__] *)
Definition new_collector (names : list string) : collector :=
  {| network_names := names; mode := "local";
     prometheus_port := VNone; influx_config := None |}.

(** *** get_container_network_interfaces *)

(** [net_name in self.network_names], the [if] of the comprehension. *)
Definition allowed (self : collector) (kv : string * net_info) : Prop :=
  kv.1 ∈ network_names self.

#[global] Instance allowed_dec self kv : Decision (allowed self kv).
Proof. unfold allowed. apply _. Defined.

(** The items of [networks_info.items()] that pass the [if]: the networks of
    the container that are on the allow-list, in the order the daemon reports
    them. *)
Definition matching (self : collector) (c : container)
    : list (string * net_info) :=
  filter (allowed self) (networks_info c).

(** [{net_name: net_info for net_name, net_info in networks_info.items()
      if net_name in self.network_names}] *)
Definition relevant_networks (self : collector) (c : container)
    : Dict.t net_info :=
  Dict.of_items (matching self c).

(** The value built for one network at position [idx]. *)
Definition make_attachment (idx : nat) (info : net_info) : attachment :=
  {| eth_interface := "eth" +:+ pretty idx;
     ip_address := Dict.get "IPAddress" info;
     mac_address := Dict.get "MacAddress" info |}.

(** [{net_name: {...} for idx, (net_name, net_info)
      in enumerate(relevant_networks.items())}] *)
Definition container_entry (relevant : Dict.t net_info) : Dict.t attachment :=
  Dict.of_items (imap (fun idx kv => (kv.1, make_attachment idx kv.2)) relevant).

(** One round of [for container in containers]. *)
Definition collect_container (self : collector) (acc : inventory)
    (c : container) : inventory :=
  let relevant := relevant_networks self c in
  match relevant with
  | [] => acc
  | _ :: _ => Dict.set (name c) (container_entry relevant) acc
  end.

Definition collect (self : collector) (containers : list container)
    : inventory :=
  fold_left (collect_container self) containers Dict.empty.

Definition get_container_network_interfaces (self : collector)
    : M inventory :=
  try_except
    (containers ← containers_list;
     mret (collect self containers))
    is_APIError
    (fun e =>
       print ("Error accessing Docker API: " +:+ exn_str e);;
       mret Dict.empty).

(** *** run_prometheus_exporter *)

Definition gauge_labels (container_name network_name : string)
    (network_info : attachment) : labelvalues :=
  (container_name, network_name, eth_interface network_info,
   opt_str (ip_address network_info), opt_str (mac_address network_info)).

(** The two nested [for] loops over [interfaces.items()]. *)
Definition publish_gauges (interfaces : inventory) : M unit :=
  for_each interfaces (fun cn =>
    for_each cn.2 (fun nn =>
      gauge_labels_set (gauge_labels cn.1 nn.1 nn.2) 1)).

(** The body of [while True]. *)
Definition prometheus_cycle (self : collector) : M unit :=
  metrics_clear;;
  interfaces ← get_container_network_interfaces self;
  publish_gauges interfaces;;
  sleep 15.

Definition run_prometheus_exporter (fuel : nat) (self : collector) : M unit :=
  try_except
    (import_module has_prometheus_client "prometheus_client";;
     start_http_server (prometheus_port self);;
     print ("Prometheus exporter started on port "
            +:+ py_str (prometheus_port self));;
     while_true fuel (prometheus_cycle self))
    is_ImportError
    (fun _ =>
       print "Error: prometheus_client package is required for exporter mode.";;
       print "Please install it using: pip install prometheus_client";;
       sys_exit 1).

(** *** run_influxdb_exporter *)

(** [self.influx_config[key]] *)
Definition subscript (cfg : option (Dict.t value)) (key : string) : M value :=
  match cfg with
  | None => raise (TypeError "'NoneType' object is not subscriptable")
  | Some d =>
      match Dict.get key d with
      | Some v => mret v
      | None => raise (KeyError key)
      end
  end.

Definition make_point (container_name network_name : string)
    (network_info : attachment) : point :=
  {| measurement := "container_network_interface";
     tags := [("container_name", container_name);
              ("network_name", network_name);
              ("eth_interface", eth_interface network_info)];
     fields := [("ip_address", ip_address network_info);
                ("mac_address", mac_address network_info)] |}.

(** The points of one inventory, in the order the nested loops meet them. *)
Definition points_of (interfaces : inventory) : list point :=
  interfaces ≫= (fun cn => (fun nn => make_point cn.1 nn.1 nn.2) <$> cn.2).

Definition write_point (self : collector) (p : point) : M unit :=
  bucket ← subscript (influx_config self) "bucket";
  org ← subscript (influx_config self) "org";
  write_api_write bucket org p.

Definition write_points (self : collector) (interfaces : inventory) : M unit :=
  for_each interfaces (fun cn =>
    for_each cn.2 (fun nn =>
      write_point self (make_point cn.1 nn.1 nn.2))).

Definition influxdb_cycle (self : collector) : M unit :=
  interfaces ← get_container_network_interfaces self;
  write_points self interfaces;;
  sleep 15.

Definition run_influxdb_exporter (fuel : nat) (self : collector) : M unit :=
  try_except
    (import_module has_influxdb_client "influxdb_client";;
     _ ← subscript (influx_config self) "url";
     _ ← subscript (influx_config self) "token";
     _ ← subscript (influx_config self) "org";
     url ← subscript (influx_config self) "url";
     print ("InfluxDB exporter started, writing to " +:+ py_str url);;
     while_true fuel (influxdb_cycle self))
    is_ImportError
    (fun _ =>
       print "Error: influxdb-client package is required for InfluxDB mode.";;
       print "Please install it using: pip install influxdb-client";;
       sys_exit 1).

(** *** json.dumps(interfaces, indent=2) *)

(** Strings are sequences of characters of code below 256; [json.dumps]
    escapes with [ensure_ascii=True]. *)
Definition dquote : ascii := "034"%char.
Definition backslash : ascii := "092"%char.
Definition newline : ascii := "010"%char.

Definition str1 (c : ascii) : string := String c EmptyString.

Definition hex_digit (n : N) : ascii :=
  match n with
  | 0 => "0" | 1 => "1" | 2 => "2" | 3 => "3" | 4 => "4" | 5 => "5"
  | 6 => "6" | 7 => "7" | 8 => "8" | 9 => "9" | 10 => "a" | 11 => "b"
  | 12 => "c" | 13 => "d" | 14 => "e" | _ => "f"
  end%char%N.

(** Characters from the space to the tilde, the quote and the backslash
    apart, stand for themselves. *)
Definition json_plain (c : ascii) : bool :=
  let n := N_of_ascii c in
  (32 <=? n)%N && (n <=? 126)%N
  && negb (bool_decide (c = dquote)) && negb (bool_decide (c = backslash)).

Definition json_escape_char (c : ascii) : string :=
  if json_plain c then str1 c
  else if decide (c = dquote) then String backslash (str1 dquote)
  else if decide (c = backslash) then String backslash (str1 backslash)
  else if decide (c = "008"%char) then String backslash "b"
  else if decide (c = "012"%char) then String backslash "f"
  else if decide (c = "010"%char) then String backslash "n"
  else if decide (c = "013"%char) then String backslash "r"
  else if decide (c = "009"%char) then String backslash "t"
  else
    let n := N_of_ascii c in
    String backslash
      ("u00" +:+ String (hex_digit (n / 16)) (str1 (hex_digit (n mod 16)))).

Fixpoint json_escape (s : string) : string :=
  match s with
  | EmptyString => EmptyString
  | String c s' => json_escape_char c +:+ json_escape s'
  end.

(** A string as a JSON string literal. *)
Definition json_string (s : string) : string :=
  String dquote (json_escape s +:+ str1 dquote).

(** A [str] or [None]. *)
Definition json_opt_string (o : option string) : string :=
  match o with
  | Some s => json_string s
  | None => "null"
  end.

Fixpoint spaces (n : nat) : string :=
  match n with
  | 0 => EmptyString
  | S n' => String " " (spaces n')
  end.

(** The line break of the encoder at nesting [level], for [indent=2]. *)
Definition newline_indent (level : nat) : string :=
  String newline (spaces (2 * level)).

Definition json_member (kv : string * string) : string :=
  json_string kv.1 +:+ ": " +:+ kv.2.

(** A dictionary whose values are already rendered, opened at nesting
    [level]. *)
Definition json_object (level : nat) (members : list (string * string))
    : string :=
  match members with
  | [] => "{}"
  | _ :: _ =>
      "{" +:+ newline_indent (S level)
      +:+ String.concat ("," +:+ newline_indent (S level))
            (json_member <$> members)
      +:+ newline_indent level +:+ "}"
  end.

Definition dumps_attachment (level : nat) (a : attachment) : string :=
  json_object level
    [("eth_interface", json_string (eth_interface a));
     ("ip_address", json_opt_string (ip_address a));
     ("mac_address", json_opt_string (mac_address a))].

Definition dumps_networks (level : nat) (networks : Dict.t attachment)
    : string :=
  json_object level
    ((fun kv => (kv.1, dumps_attachment (S level) kv.2)) <$> networks).

Definition json_dumps (interfaces : inventory) : string :=
  json_object 0 ((fun kv => (kv.1, dumps_networks 1 kv.2)) <$> interfaces).

(** *** run_local_output, set_mode, run *)

Definition run_local_output (self : collector) : M unit :=
  interfaces ← get_container_network_interfaces self;
  match interfaces with
  | _ :: _ => print (json_dumps interfaces)
  | [] => print "No containers found in the specified networks."
  end.

(** [set_mode(mode, **kwargs)]; [kwargs.get("port")] is [None] without a
    [port] keyword. *)
Definition set_mode (new_mode : string) (kwargs : Dict.t value)
    (self : collector) : collector :=
  let self1 :=
    {| network_names := network_names self; mode := new_mode;
       prometheus_port := prometheus_port self;
       influx_config := influx_config self |} in
  if decide (new_mode = "prometheus") then
    {| network_names := network_names self1; mode := mode self1;
       prometheus_port := default VNone (Dict.get "port" kwargs);
       influx_config := influx_config self1 |}
  else if decide (new_mode = "influxdb") then
    {| network_names := network_names self1; mode := mode self1;
       prometheus_port := prometheus_port self1;
       influx_config := Some kwargs |}
  else self1.

Definition run (fuel : nat) (self : collector) : M unit :=
  if decide (mode self = "prometheus") then run_prometheus_exporter fuel self
  else if decide (mode self = "influxdb") then run_influxdb_exporter fuel self
  else run_local_output self.

(** ** main *)

(** What [parse_arguments] returns: [--networks], [--prometheus PORT] (an
    [int], [None] without the flag) and [--influxdb]. *)
Record arguments := {
  networks : list string;
  prometheus : option Z;
  influxdb : bool
}.

(** [os.getenv(key)] and [os.getenv(key, default)], as values. *)
Definition getenv (environ : gmap string string) (key : string) : value :=
  match environ !! key with
  | Some s => VStr s
  | None => VNone
  end.

Definition getenv_default (environ : gmap string string) (key dflt : string)
    : value :=
  VStr (default dflt (environ !! key)).

Definition influx_config_of_env (environ : gmap string string)
    : Dict.t value :=
  [("url", getenv_default environ "INFLUXDB_URL" "http://localhost:8086");
   ("token", getenv environ "INFLUXDB_TOKEN");
   ("org", getenv environ "INFLUXDB_ORG");
   ("bucket", getenv environ "INFLUXDB_BUCKET")].

(** [[k for k, v in influx_config.items() if v is None]] *)
Definition missing_vars (cfg : Dict.t value) : list string :=
  (filter (fun kv => kv.2 = VNone) cfg).*1.

(** [if args.prometheus:] is false without the flag and for port 0. *)
Definition port_given (p : option Z) : bool :=
  match p with
  | Some port => truthy (VInt port)
  | None => false
  end.

Definition main (fuel : nat) (args : arguments)
    (environ : gmap string string) : M unit :=
  let collector := new_collector (networks args) in
  if port_given (prometheus args) then
    run fuel
      (set_mode "prometheus"
         [("port", from_option VInt VNone (prometheus args))] collector)
  else if influxdb args then
    let influx_config := influx_config_of_env environ in
    match missing_vars influx_config with
    | _ :: _ =>
        print ("Error: Missing required environment variables: "
               +:+ String.concat ", " (missing_vars influx_config));;
        sys_exit 1
    | [] => run fuel (set_mode "influxdb" influx_config collector)
    end
  else run fuel collector.

(** ** Vocabulary of the statements *)

(** The label tuples the nested loops of the gauge driver publish for one
    inventory, in order. *)
Definition series_of (interfaces : inventory) : list labelvalues :=
  interfaces ≫= (fun cn => (fun nn => gauge_labels cn.1 nn.1 nn.2) <$> cn.2).

(** The table after [gauge.labels(lv).set(1)] for each tuple of a list. *)
Definition publish_all (lvs : list labelvalues) (m : gmap labelvalues Z)
    : gmap labelvalues Z :=
  foldl (fun m lv => <[lv := 1%Z]> m) m lvs.

(** The write calls of a list of points. *)
Definition requests_of (bucket org : value) (pts : list point)
    : list write_request :=
  (fun p => {| wr_bucket := bucket; wr_org := org; wr_record := p |}) <$> pts.

(** The first [k] rounds of a [while True] loop. *)
Fixpoint cycles (k : nat) (body : M unit) : M unit :=
  match k with
  | 0 => mret tt
  | S k' => body;; cycles k' body
  end.

(** [s] occurs in [t]. *)
Definition occurs_in (s t : string) : Prop :=
  ∃ a b, t = a +:+ s +:+ b.

(** ** Sample inputs *)

(** A container on three networks, two of them on the default allow-list;
    the daemon reports no address for [host]. *)
Definition sample_web : container :=
  {| name := "web";
     NetworkSettings := Some {| Networks := Some
       [("none", []);
        ("bridge", [("IPAddress", "172.17.0.2"); ("MacAddress", "AA:BB")]);
        ("host", [("Gateway", "10.0.0.1")])] |} |}.

(** A container with no network on the default allow-list. *)
Definition sample_db : container :=
  {| name := "db";
     NetworkSettings := Some {| Networks := Some [("private", [])] |} |}.

Definition sample_collector : collector := new_collector ["bridge"; "host"].

(** A fresh process: nothing printed, nothing polled, both client libraries
    installed, the port free. *)
Definition sample_world (daemon : nat → exn + list container)
    (backend : nat → option exn) : world :=
  {| docker_list := daemon; polls := 0; stdout := []; slept := 0;
     has_prometheus_client := true; has_influxdb_client := true;
     http_bind_error := None; http_port := None; metrics := ∅;
     influx_write := backend; written := [] |}.

(** The daemon always answers with the two sample containers. *)
Definition sample_daemon : nat → exn + list container :=
  fun _ => inr [sample_web; sample_db].

Definition sample_influx_config : Dict.t value :=
  [("url", VStr "http://influx:8086"); ("token", VStr "t");
   ("org", VStr "o"); ("bucket", VStr "b")].


(** A series left by an earlier round, for a container [c1] that has since
    gone, and a world that still has it. *)
Definition stale_series : labelvalues :=
  ("c1", "bridge", "eth0", "172.17.0.9", "AA:CC").

Definition stale_world : world :=
  set_metrics {[ stale_series := 1%Z ]}
    (sample_world sample_daemon (fun _ => None)).

Definition sample_influx_collector : collector :=
  set_mode "influxdb" sample_influx_config sample_collector.

(** A backend that refuses the write number [n] (counting from 0) and accepts
    the others. *)
Definition failing_backend (n : nat) : nat → option exn :=
  fun i => if decide (i = n) then Some (WriteError "timeout") else None.

(** The world once the push driver has printed its start-up line. *)
Definition influx_started (url : value) (w : world) : world :=
  set_stdout
    (stdout w ++ ["InfluxDB exporter started, writing to " +:+ py_str url]) w.

(** Every character of [s] stands for itself in a JSON string literal. *)
Fixpoint all_plain (s : string) : bool :=
  match s with
  | EmptyString => true
  | String c s' => json_plain c && all_plain s'
  end.

(** [s] is made of characters from the space to the tilde, without the
    double quote (code 34) and the backslash (code 92). *)
Definition plain_text (s : string) : Prop :=
  Forall (fun c => (32 ≤ N_of_ascii c ≤ 126)%N
                   ∧ c ≠ "034"%char ∧ c ≠ "092"%char)
    (String.list_ascii_of_string s).

(** The notice of the local-once driver. *)
Definition nothing_found : string :=
  "No containers found in the specified networks.".

(** The names of the three environment variables without a default, by the
    key of the configuration they fill. *)
Definition required_env : list (string * string) :=
  [("token", "INFLUXDB_TOKEN"); ("org", "INFLUXDB_ORG");
   ("bucket", "INFLUXDB_BUCKET")].

(** The keys whose environment variable is not set. *)
Definition unset_keys (environ : gmap string string) : list string :=
  (filter (fun kv => environ !! kv.2 = None) required_env).*1.

(** The command line [--influxdb] with the default networks. *)
Definition sample_influx_args : arguments :=
  {| networks := ["bridge"; "host"]; prometheus := None; influxdb := true |}.

(** An environment with the three credentials and no [INFLUXDB_URL]. *)
Definition environ_without_url : gmap string string :=
  {[ "INFLUXDB_TOKEN" := "t"; "INFLUXDB_ORG" := "o";
     "INFLUXDB_BUCKET" := "b" ]}.

(** An environment with the URL and the bucket only. *)
Definition environ_without_credentials : gmap string string :=
  {[ "INFLUXDB_URL" := "http://influx:8086"; "INFLUXDB_BUCKET" := "b" ]}.

(** The container has a network on the allow-list: the [if
    relevant_networks:] of the resolver. *)
Definition has_match (self : collector) (c : container) : Prop :=
  matching self c ≠ [].

#[global] Instance has_match_dec self c : Decision (has_match self c).
Proof. unfold has_match. apply _. Defined.

(** What the resolver builds for a container whose network dictionary is a
    real dictionary: its matching networks, numbered from 0. *)
Definition entry_of (self : collector) (c : container) : Dict.t attachment :=
  imap (fun idx kv => (kv.1, make_attachment idx kv.2)) (matching self c).

(** The number of attachments of an inventory. *)
Definition attachment_count (interfaces : inventory) : nat :=
  sum_list_with (fun cn => length cn.2) interfaces.

(** For the next [n] polls the daemon answers or fails with an API error. *)
Definition daemon_recoverable (w : world) (n : nat) : Prop :=
  ∀ i, i < n →
    match docker_list w (polls w + i) with
    | inr _ => True
    | inl e => is_APIError e = true
    end.

(** The world once the gauge driver has bound its port and printed its
    start-up line. *)
Definition prometheus_started (port : value) (w : world) : world :=
  set_stdout
    (stdout w ++ ["Prometheus exporter started on port " +:+ py_str port])
    (set_http_port (Some port) w).

(** Two containers that share the name [web]; only the networks differ. *)
Definition sample_web_twin : container :=
  {| name := "web";
     NetworkSettings := Some {| Networks := Some
       [("host", [("IPAddress", "10.0.0.7")])] |} |}.

(** * Properties *)

(** ** Dictionaries *)

Section dict_facts.
Context {V : Type}.
Implicit Types (d : Dict.t V) (k : string) (v : V).

Lemma dict_set_fresh k v d :
  k ∉ Dict.keys d → Dict.set k v d = d ++ [(k, v)].
Proof.
  unfold Dict.keys. induction d as [|[k' v'] d IH]; simpl; [done|].
  intros Hk. apply not_elem_of_cons in Hk as [Hne Hk].
  destruct (decide (k' = k)) as [->|_]; [done|]. by rewrite IH.
Qed.

Lemma dict_elem_of_set k v d x :
  x ∈ Dict.set k v d → x = (k, v) ∨ x ∈ d.
Proof.
  induction d as [|[k' v'] d IH]; simpl.
  - intros ->%list_elem_of_singleton. by left.
  - destruct (decide (k' = k)) as [->|_].
    + intros [->|?]%elem_of_cons; [by left|]. right. by apply elem_of_cons; right.
    + intros [->|Hx]%elem_of_cons.
      * right. by apply elem_of_cons; left.
      * destruct (IH Hx) as [->|?]; [by left|].
        right. by apply elem_of_cons; right.
Qed.

Lemma dict_set_keys k v d k' :
  k' ∈ Dict.keys (Dict.set k v d) ↔ k' = k ∨ k' ∈ Dict.keys d.
Proof.
  unfold Dict.keys. induction d as [|[k0 v0] d IH]; simpl.
  - rewrite list_elem_of_singleton. split; [by left|]. intros [?|H]; [done|].
    by apply elem_of_nil in H.
  - destruct (decide (k0 = k)) as [->|Hne]; simpl.
    + rewrite !elem_of_cons. tauto.
    + rewrite !elem_of_cons, IH. tauto.
Qed.

Lemma dict_set_not_nil k v d : Dict.set k v d ≠ [].
Proof. destruct d as [|[k' v'] d]; simpl; [done|]. by case_decide. Qed.

(** A comprehension over the items of a real dictionary is that list of
    items. *)
Lemma dict_fold_set_fresh (items : list (string * V)) d :
  NoDup (Dict.keys (d ++ items)) →
  fold_left (fun d kv => Dict.set kv.1 kv.2 d) items d = d ++ items.
Proof.
  revert d. induction items as [|[k v] items IH]; intros d Hnd; simpl.
  - by rewrite app_nil_r.
  - rewrite dict_set_fresh.
    + rewrite IH; [by rewrite <-app_assoc|]. by rewrite <-app_assoc.
    + unfold Dict.keys in *. rewrite fmap_app in Hnd.
      apply NoDup_app in Hnd as (_ & Hdisj & _).
      intros Hin. apply (Hdisj k Hin). simpl. by apply elem_of_cons; left.
Qed.

Lemma dict_of_items_wf (items : list (string * V)) :
  Dict.wf items → Dict.of_items items = items.
Proof. intros Hwf. unfold Dict.of_items. by rewrite dict_fold_set_fresh. Qed.

Lemma dict_fold_set_elem (items : list (string * V)) d x :
  x ∈ fold_left (fun d kv => Dict.set kv.1 kv.2 d) items d →
  x ∈ d ∨ x ∈ items.
Proof.
  revert d. induction items as [|[k v] items IH]; intros d; simpl; [by left|].
  intros [Hx|Hx]%IH.
  - apply dict_elem_of_set in Hx as [->|?]; [|by left].
    right. by apply elem_of_cons; left.
  - right. by apply elem_of_cons; right.
Qed.

Lemma dict_elem_of_of_items (items : list (string * V)) x :
  x ∈ Dict.of_items items → x ∈ items.
Proof.
  intros [Hx|Hx]%dict_fold_set_elem; [|done]. by apply elem_of_nil in Hx.
Qed.

Lemma dict_fold_set_not_nil (items : list (string * V)) d :
  d ≠ [] → fold_left (fun d kv => Dict.set kv.1 kv.2 d) items d ≠ [].
Proof.
  revert d. induction items as [|[k v] items IH]; intros d Hd; simpl; [done|].
  apply IH, dict_set_not_nil.
Qed.

Lemma dict_of_items_nil (items : list (string * V)) :
  Dict.of_items items = [] ↔ items = [].
Proof.
  split; [|by intros ->].
  destruct items as [|[k v] items]; [done|]. unfold Dict.of_items. simpl.
  intros H. by apply dict_fold_set_not_nil in H.
Qed.

End dict_facts.

Section dict_wf.
Context {V : Type}.
Implicit Types (d : Dict.t V).

Lemma dict_set_wf k (v : V) d : Dict.wf d → Dict.wf (Dict.set k v d).
Proof.
  unfold Dict.wf. induction d as [|[k' v'] d IH]; simpl.
  - intros _. apply NoDup_singleton.
  - unfold Dict.keys in *. simpl. rewrite NoDup_cons. intros [Hk' Hd].
    destruct (decide (k' = k)) as [->|Hne]; simpl.
    + by apply NoDup_cons.
    + apply NoDup_cons. split; [|by apply IH].
      intros [?|?]%dict_set_keys; [by subst|done].
Qed.

Lemma dict_fold_set_wf (items : list (string * V)) d :
  Dict.wf d → Dict.wf (fold_left (fun d kv => Dict.set kv.1 kv.2 d) items d).
Proof.
  revert d. induction items as [|[k v] items IH]; intros d Hd; simpl; [done|].
  by apply IH, dict_set_wf.
Qed.

Lemma dict_of_items_is_wf (items : list (string * V)) :
  Dict.wf (Dict.of_items items).
Proof. apply dict_fold_set_wf, NoDup_nil_2. Qed.

Lemma dict_filter_wf (P : string * V → Prop) `{!∀ x, Decision (P x)} d :
  Dict.wf d → Dict.wf (filter P d).
Proof.
  unfold Dict.wf, Dict.keys. intros Hd. eapply sublist_NoDup; [exact Hd|].
  apply fmap_sublist, sublist_filter.
Qed.

End dict_wf.

(** ** The resolver *)

Section resolver_facts.
Variable self : collector.

Lemma relevant_networks_elem c n info :
  (n, info) ∈ relevant_networks self c →
  n ∈ network_names self ∧ (n, info) ∈ networks_info c.
Proof.
  unfold relevant_networks.
  intros H%dict_elem_of_of_items%list_elem_of_filter. exact H.
Qed.

Lemma relevant_networks_nil c :
  relevant_networks self c = [] ↔ matching self c = [].
Proof. apply dict_of_items_nil. Qed.

Lemma relevant_networks_wf c :
  Dict.wf (networks_info c) → relevant_networks self c = matching self c.
Proof.
  intros Hwf. unfold relevant_networks. apply dict_of_items_wf.
  by apply dict_filter_wf.
Qed.

Lemma imap_attachment_keys (l : list (string * net_info)) :
  (imap (fun idx kv => (kv.1, make_attachment idx kv.2)) l).*1 = l.*1.
Proof.
  rewrite fmap_imap. rewrite imap_ext with (g := fun _ kv => kv.1); [|done].
  apply imap_const.
Qed.

(** The inner comprehension runs over the items of a dictionary, so it keeps
    them all, in order. *)
Lemma container_entry_imap (rel : Dict.t net_info) :
  Dict.wf rel →
  container_entry rel = imap (fun idx kv => (kv.1, make_attachment idx kv.2)) rel.
Proof.
  intros Hwf. unfold container_entry. apply dict_of_items_wf.
  unfold Dict.wf, Dict.keys. by rewrite imap_attachment_keys.
Qed.

Lemma container_entry_keys (rel : Dict.t net_info) :
  Dict.wf rel → Dict.keys (container_entry rel) = Dict.keys rel.
Proof.
  intros Hwf. rewrite container_entry_imap by done. apply imap_attachment_keys.
Qed.

Lemma container_entry_eth (rel : Dict.t net_info) :
  Dict.wf rel →
  eth_interface <$> Dict.values (container_entry rel)
  = (fun i => "eth" +:+ pretty i) <$> seq 0 (length rel).
Proof.
  intros Hwf. rewrite container_entry_imap by done. unfold Dict.values.
  rewrite !fmap_imap.
  rewrite imap_ext with (g := fun i _ => "eth" +:+ pretty i); [|done].
  apply imap_seq_0.
Qed.

Lemma container_entry_lookup (rel : Dict.t net_info) i n a :
  Dict.wf rel →
  container_entry rel !! i = Some (n, a) →
  ∃ info, rel !! i = Some (n, info) ∧ a = make_attachment i info.
Proof.
  intros Hwf. rewrite container_entry_imap by done.
  rewrite list_lookup_imap_Some. intros ([n' info] & Hi & [= -> ->]).
  by exists info.
Qed.

#[global] Instance eth_name_inj : Inj (=) (=) (fun i : nat => "eth" +:+ pretty i).
Proof. intros i j H. by apply (inj (String.app "eth")), (inj pretty) in H. Qed.

(** Every entry of the result was built from a container of the list that
    has a network on the allow-list. *)
Lemma collect_fold_elem cs (acc : inventory) cname nets :
  (cname, nets) ∈ fold_left (collect_container self) cs acc →
  (cname, nets) ∈ acc ∨
  ∃ c, c ∈ cs ∧ name c = cname ∧ relevant_networks self c ≠ []
       ∧ nets = container_entry (relevant_networks self c).
Proof.
  revert acc. induction cs as [|c cs IH]; intros acc; simpl; [by left|].
  intros [Hacc|(c' & Hc' & H)]%IH.
  - unfold collect_container in Hacc.
    destruct (relevant_networks self c) as [|x rel] eqn:Hrel; [by left|].
    apply dict_elem_of_set in Hacc as [[= -> ->]|?]; [|by left].
    right. exists c. rewrite Hrel. split_and!; [by left|done..].
  - right. exists c'. split; [by right|done].
Qed.

Lemma collect_elem cs cname nets :
  (cname, nets) ∈ collect self cs →
  ∃ c, c ∈ cs ∧ name c = cname ∧ relevant_networks self c ≠ []
       ∧ nets = container_entry (relevant_networks self c).
Proof.
  intros [H|H]%collect_fold_elem; [|done]. by apply elem_of_nil in H.
Qed.

End resolver_facts.

(** What one call of the resolver does, by the answer of the daemon. *)
Lemma resolver_run self w :
  get_container_network_interfaces self w =
  let w1 := set_polls (S (polls w)) w in
  match docker_list w (polls w) with
  | inr cs => (Ok (collect self cs), w1)
  | inl e =>
      if is_APIError e
      then (Ok Dict.empty,
            set_stdout
              (stdout w1 ++ ["Error accessing Docker API: " +:+ exn_str e]) w1)
      else (Raise e, w1)
  end.
Proof.
  unfold get_container_network_interfaces, try_except, containers_list.
  unfold mbind, M_bind, mret, M_ret, print. simpl.
  destruct (docker_list w (polls w)) as [e|cs]; [|done].
  by destruct (is_APIError e).
Qed.

Lemma resolver_run_ok self w cs :
  docker_list w (polls w) = inr cs →
  get_container_network_interfaces self w
  = (Ok (collect self cs), set_polls (S (polls w)) w).
Proof. intros H. by rewrite resolver_run, H. Qed.

Lemma container_entry_elem self c n a :
  (n, a) ∈ container_entry (relevant_networks self c) →
  ∃ i info, relevant_networks self c !! i = Some (n, info)
            ∧ a = make_attachment i info.
Proof.
  intros [i Hi]%list_elem_of_lookup.
  apply container_entry_lookup in Hi as (info & ? & ?);
    [|apply dict_of_items_is_wf].
  by exists i, info.
Qed.

Lemma container_entry_not_nil (rel : Dict.t net_info) :
  rel ≠ [] → container_entry rel ≠ [].
Proof.
  intros Hrel H. unfold container_entry in H.
  apply (proj1 (dict_of_items_nil _)) in H.
  destruct rel; [done|]. rewrite imap_cons in H. discriminate H.
Qed.

(** C4: for every container of the resolver's output, built from a container
    with k >= 1 networks on the allow-list, the synthetic interface ids are
    eth0 ... eth(k-1), each once, and the id of a network is "eth" followed by
    the zero-based position of the network among the container's matching
    networks, in the order of the daemon's answer. *)
Theorem synthetic_ids_are_positions self w w' cs inv cname nets :
  docker_list w (polls w) = inr cs →
  (∀ c, c ∈ cs → Dict.wf (networks_info c)) →
  get_container_network_interfaces self w = (Ok inv, w') →
  (cname, nets) ∈ inv →
  ∃ c, c ∈ cs ∧ name c = cname ∧
    let k := length (matching self c) in
    1 ≤ k ∧
    Dict.keys nets = (matching self c).*1 ∧
    eth_interface <$> Dict.values nets
      = (fun i => "eth" +:+ pretty i) <$> seq 0 k ∧
    NoDup (eth_interface <$> Dict.values nets) ∧
    ∀ i n a, nets !! i = Some (n, a) →
      eth_interface a = "eth" +:+ pretty i
      ∧ ∃ info, matching self c !! i = Some (n, info).
Proof.
  intros Hq Hwf Hrun Hin. rewrite (resolver_run_ok _ _ _ Hq) in Hrun.
  injection Hrun as <- <-.
  apply collect_elem in Hin as (c & Hc & Hname & Hne & ->).
  exists c. do 2 (split; [done|]). cbv zeta. split_and!.
  - rewrite relevant_networks_wf in Hne by auto.
    destruct (matching self c); simpl; [done|lia].
  - rewrite container_entry_keys by apply dict_of_items_is_wf.
    by rewrite relevant_networks_wf by auto.
  - rewrite container_entry_eth by apply dict_of_items_is_wf.
    by rewrite relevant_networks_wf by auto.
  - rewrite container_entry_eth by apply dict_of_items_is_wf.
    apply (NoDup_fmap_2 _), NoDup_seq.
  - intros i n a Hi.
    apply container_entry_lookup in Hi as (info & Hi & ->);
      [|apply dict_of_items_is_wf].
    split; [done|]. exists info. by rewrite <-relevant_networks_wf by auto.
Qed.

(** C5: every network name of the resolver's output is on the allow-list, no
    container of the output has an empty set of networks, and a name none of
    whose containers has a network on the allow-list is not a key of the
    output. *)
Theorem resolver_output_within_allow_list self w w' cs inv :
  docker_list w (polls w) = inr cs →
  get_container_network_interfaces self w = (Ok inv, w') →
  (∀ cname nets n a,
     (cname, nets) ∈ inv → (n, a) ∈ nets → n ∈ network_names self)
  ∧ (∀ cname nets, (cname, nets) ∈ inv → nets ≠ [])
  ∧ (∀ cname,
       (∀ c, c ∈ cs → name c = cname →
          ∀ n, n ∈ Dict.keys (networks_info c) → n ∉ network_names self) →
       cname ∉ Dict.keys inv).
Proof.
  intros Hq Hrun. rewrite (resolver_run_ok _ _ _ Hq) in Hrun.
  injection Hrun as <- <-. split_and!.
  - intros cname nets n a (c & _ & _ & _ & ->)%collect_elem Hna.
    apply container_entry_elem in Hna as (i & info & Hi & _).
    apply list_elem_of_lookup_2 in Hi.
    by apply relevant_networks_elem in Hi as [? _].
  - intros cname nets (c & _ & _ & Hne & ->)%collect_elem.
    by apply container_entry_not_nil.
  - intros cname Hnone [[cn nets] [-> Hin]]%list_elem_of_fmap. simpl in *.
    apply collect_elem in Hin as (c & Hc & Hname & Hne & _).
    apply Hne, relevant_networks_nil. unfold matching.
    destruct (filter _ _) as [|[n info] l] eqn:Hf; [done|]. exfalso.
    assert ((n, info) ∈ filter (allowed self) (networks_info c))
      as [Hallowed Hn]%list_elem_of_filter by (rewrite Hf; left).
    apply (Hnone c Hc Hname n); [|done].
    apply list_elem_of_fmap. by exists (n, info).
Qed.

(** ** The gauge driver *)

Lemma set_metrics_same w : set_metrics (metrics w) w = w.
Proof. by destruct w. Qed.

Lemma for_each_gauges (lvs : list labelvalues) w :
  for_each lvs (fun lv => gauge_labels_set lv 1) w
  = (Ok tt, set_metrics (publish_all lvs (metrics w)) w).
Proof.
  revert w. induction lvs as [|lv lvs IH]; intros w; simpl.
  - by rewrite set_metrics_same.
  - unfold mbind, M_bind, gauge_labels_set at 1. by rewrite IH.
Qed.

Lemma for_each_fmap {A B} (f : A → B) (body : B → M unit) (xs : list A) w :
  for_each (f <$> xs) body w = for_each xs (fun x => body (f x)) w.
Proof.
  revert w. induction xs as [|x xs IH]; intros w; [done|].
  simpl. unfold mbind, M_bind. destruct (body (f x) w) as [[| |] w1]; auto.
Qed.

Lemma publish_all_app lvs1 lvs2 m :
  publish_all (lvs1 ++ lvs2) m = publish_all lvs2 (publish_all lvs1 m).
Proof. apply foldl_app. Qed.

Lemma publish_gauges_run (interfaces : inventory) w :
  publish_gauges interfaces w
  = (Ok tt, set_metrics (publish_all (series_of interfaces) (metrics w)) w).
Proof.
  unfold publish_gauges, series_of. revert w.
  induction interfaces as [|[cname nets] inv IH]; intros w; simpl.
  - by rewrite set_metrics_same.
  - unfold mbind at 1, M_bind at 1.
    rewrite <-(for_each_fmap (fun nn => gauge_labels cname nn.1 nn.2)
                 (fun lv => gauge_labels_set lv 1)).
    rewrite for_each_gauges, IH. simpl. by rewrite publish_all_app.
Qed.

Lemma lookup_publish_all lvs m lv :
  publish_all lvs m !! lv
  = if decide (lv ∈ lvs) then Some 1%Z else m !! lv.
Proof.
  revert m. induction lvs as [|lv' lvs IH]; intros m.
  - destruct (decide (lv ∈ [])) as [H|_]; [by apply elem_of_nil in H|done].
  - unfold publish_all in *. simpl. rewrite IH.
    destruct (decide (lv ∈ lvs)) as [Hin|Hnin].
    + rewrite decide_True; [done|by right].
    + destruct (decide (lv' = lv)) as [->|Hne].
      * rewrite lookup_insert_eq. rewrite decide_True; [done|by left].
      * rewrite lookup_insert_ne by done.
        rewrite decide_False; [done|]. by intros [?|?]%elem_of_cons.
Qed.

Lemma elem_of_series_of (interfaces : inventory) lv :
  lv ∈ series_of interfaces ↔
  ∃ cname nets n a, (cname, nets) ∈ interfaces ∧ (n, a) ∈ nets
                    ∧ lv = gauge_labels cname n a.
Proof.
  unfold series_of. rewrite list_elem_of_bind. split.
  - intros ([cname nets] & Hlv & Hin). simpl in Hlv.
    apply list_elem_of_fmap in Hlv as ([n a] & -> & Hna).
    by exists cname, nets, n, a.
  - intros (cname & nets & n & a & Hin & Hna & ->).
    exists (cname, nets). split; [|done]. simpl.
    apply list_elem_of_fmap. by exists (n, a).
Qed.

(** One round of the gauge loop, by the answer of the daemon. *)
Lemma prometheus_cycle_run self w :
  prometheus_cycle self w =
  let w1 := set_polls (S (polls w)) (set_metrics ∅ w) in
  match docker_list w (polls w) with
  | inr cs =>
      (Ok tt,
       set_slept (slept w + 15)
         (set_metrics (publish_all (series_of (collect self cs)) ∅) w1))
  | inl e =>
      if is_APIError e
      then (Ok tt,
            set_slept (slept w + 15)
              (set_stdout
                 (stdout w ++ ["Error accessing Docker API: " +:+ exn_str e])
                 w1))
      else (Raise e, w1)
  end.
Proof.
  unfold prometheus_cycle, metrics_clear.
  unfold mbind at 1, M_bind at 1. unfold mbind at 1, M_bind at 1.
  rewrite resolver_run. simpl.
  destruct (docker_list w (polls w)) as [e|cs].
  - destruct (is_APIError e); [|done].
    unfold mbind, M_bind. by rewrite publish_gauges_run.
  - unfold mbind, M_bind. by rewrite publish_gauges_run.
Qed.

Lemma while_true_step fuel body w w' :
  body w = (Ok tt, w') →
  while_true (S fuel) body w = while_true fuel body w'.
Proof. intros H. simpl. unfold mbind, M_bind. by rewrite H. Qed.


(** C8, amended: every attachment of the inventory is published with all five
    labels.  The driver hands the address of the inventory to the gauge as it
    is, and an address the daemon did not report is [None] there, which the
    gauge stores as the text "None". *)
Theorem gauge_publishes_absent_address_as_None self w cs cname nets n a :
  docker_list w (polls w) = inr cs →
  (cname, nets) ∈ collect self cs →
  (n, a) ∈ nets →
  metrics (prometheus_cycle self w).2
    !! (cname, n, eth_interface a,
        from_option id "None" (ip_address a),
        from_option id "None" (mac_address a)) = Some 1%Z
  ∧ ∃ c info, c ∈ cs ∧ name c = cname ∧ (n, info) ∈ networks_info c
      ∧ ip_address a = Dict.get "IPAddress" info
      ∧ mac_address a = Dict.get "MacAddress" info.
Proof.
  intros Hq Hin Hna. split.
  - rewrite prometheus_cycle_run, Hq. simpl.
    rewrite lookup_publish_all, decide_True; [done|].
    apply elem_of_series_of. exists cname, nets, n, a.
    split_and!; [done..|]. unfold gauge_labels, opt_str.
    by destruct (ip_address a), (mac_address a).
  - apply collect_elem in Hin as (c & Hc & Hname & _ & ->).
    apply container_entry_elem in Hna as (i & info & Hi & ->).
    apply list_elem_of_lookup_2, relevant_networks_elem in Hi as [_ Hi].
    by exists c, info.
Qed.

(** C3, amended: when the query of the daemon fails with an API error, the
    resolver prints the error and returns the empty mapping; when it fails
    with an exception of any other class, the resolver does not catch it: the
    exception reaches the caller and nothing is printed. *)
Theorem resolver_catches_api_error self w :
  (∀ msg, docker_list w (polls w) = inl (APIError msg) →
     get_container_network_interfaces self w
     = (Ok Dict.empty,
        set_stdout (stdout w ++ ["Error accessing Docker API: " +:+ msg])
          (set_polls (S (polls w)) w)))
  ∧ (∀ e, docker_list w (polls w) = inl e →
       (∀ msg, e ≠ APIError msg) →
       get_container_network_interfaces self w
       = (Raise e, set_polls (S (polls w)) w)).
Proof.
  split.
  - intros msg Hq. by rewrite resolver_run, Hq.
  - intros e Hq Hne. rewrite resolver_run, Hq. cbv zeta.
    destruct e; try done. by destruct (Hne msg).
Qed.

(** *** The statements above on the sample containers *)

Lemma sample_containers_wf c :
  c ∈ [sample_web; sample_db] → Dict.wf (networks_info c).
Proof.
  intros Hc. apply elem_of_cons in Hc as [->|Hc];
    [|apply list_elem_of_singleton in Hc as ->];
    apply (bool_decide_unpack _); vm_compute; exact I.
Defined.

Lemma sample_web_in_inventory :
  ("web", container_entry (relevant_networks sample_collector sample_web))
  ∈ collect sample_collector [sample_web; sample_db].
Proof. vm_compute. apply list_elem_of_here. Defined.

Lemma synthetic_ids_are_positions_witness :
  ∃ c, c ∈ [sample_web; sample_db] ∧ name c = "web" ∧
    let nets := container_entry (relevant_networks sample_collector sample_web) in
    let k := length (matching sample_collector c) in
    1 ≤ k ∧
    Dict.keys nets = (matching sample_collector c).*1 ∧
    eth_interface <$> Dict.values nets
      = (fun i => "eth" +:+ pretty i) <$> seq 0 k ∧
    NoDup (eth_interface <$> Dict.values nets) ∧
    ∀ i n a, nets !! i = Some (n, a) →
      eth_interface a = "eth" +:+ pretty i
      ∧ ∃ info, matching sample_collector c !! i = Some (n, info).
Proof.
  apply (synthetic_ids_are_positions sample_collector
           (sample_world sample_daemon (fun _ => None))
           (set_polls 1 (sample_world sample_daemon (fun _ => None)))
           [sample_web; sample_db]
           (collect sample_collector [sample_web; sample_db])).
  - reflexivity.
  - exact sample_containers_wf.
  - reflexivity.
  - exact sample_web_in_inventory.
Defined.

Lemma resolver_output_within_allow_list_witness :
  let inv := collect sample_collector [sample_web; sample_db] in
  (∀ cname nets n a,
     (cname, nets) ∈ inv → (n, a) ∈ nets →
     n ∈ network_names sample_collector)
  ∧ (∀ cname nets, (cname, nets) ∈ inv → nets ≠ [])
  ∧ (∀ cname,
       (∀ c, c ∈ [sample_web; sample_db] → name c = cname →
          ∀ n, n ∈ Dict.keys (networks_info c) →
               n ∉ network_names sample_collector) →
       cname ∉ Dict.keys inv).
Proof.
  apply (resolver_output_within_allow_list sample_collector
           (sample_world sample_daemon (fun _ => None))
           (set_polls 1 (sample_world sample_daemon (fun _ => None)))).
  - reflexivity.
  - reflexivity.
Defined.

(** The container [db] has no network on the allow-list and is not in the
    result. *)
Example sample_db_absent :
  Dict.keys (collect sample_collector [sample_web; sample_db]) = ["web"].
Proof. reflexivity. Qed.

Lemma resolver_catches_api_error_witness :
  get_container_network_interfaces sample_collector
    (sample_world (fun _ => inl (APIError "500 Server Error")) (fun _ => None))
  = (Ok Dict.empty,
     set_stdout ["Error accessing Docker API: 500 Server Error"]
       (set_polls 1
          (sample_world (fun _ => inl (APIError "500 Server Error"))
             (fun _ => None))))
  ∧ get_container_network_interfaces sample_collector
      (sample_world (fun _ => inl (ConnectionError "Connection refused"))
         (fun _ => None))
    = (Raise (ConnectionError "Connection refused"),
       set_polls 1
         (sample_world (fun _ => inl (ConnectionError "Connection refused"))
            (fun _ => None))).
Proof.
  split.
  - apply (proj1 (resolver_catches_api_error sample_collector
                    (sample_world (fun _ => inl (APIError "500 Server Error"))
                       (fun _ => None))) "500 Server Error").
    reflexivity.
  - apply (proj2 (resolver_catches_api_error sample_collector
                    (sample_world
                       (fun _ => inl (ConnectionError "Connection refused"))
                       (fun _ => None)))
             (ConnectionError "Connection refused")).
    + reflexivity.
    + discriminate.
Defined.

(** C3, as stated, fails: when the daemon cannot be reached the client raises
    a [ConnectionError], which the resolver does not catch; the call raises,
    returns no mapping and prints nothing. *)
Lemma resolver_raises_on_connection_loss :
  let r := get_container_network_interfaces sample_collector
             (sample_world (fun _ => inl (ConnectionError "Connection refused"))
                (fun _ => None)) in
  r.1 = Raise (ConnectionError "Connection refused")
  ∧ r.1 ≠ Ok Dict.empty
  ∧ stdout r.2 = [].
Proof. vm_compute. by split_and!. Qed.


(** The series of the container [c1], published by an earlier round, is gone
    after a round in which the daemon no longer reports [c1]. *)
Example stale_series_gone :
  metrics stale_world !! stale_series = Some 1%Z
  ∧ metrics (prometheus_cycle sample_collector stale_world).2 !! stale_series
    = None.
Proof. by vm_compute. Qed.

Lemma gauge_publishes_absent_address_as_None_witness :
  metrics (prometheus_cycle sample_collector
             (sample_world sample_daemon (fun _ => None))).2
    !! ("web", "host", "eth1", "None", "None") = Some 1%Z
  ∧ ∃ c info, c ∈ [sample_web; sample_db] ∧ name c = "web"
      ∧ ("host", info) ∈ networks_info c
      ∧ None = Dict.get "IPAddress" info
      ∧ None = Dict.get "MacAddress" info.
Proof.
  apply (gauge_publishes_absent_address_as_None sample_collector
           (sample_world sample_daemon (fun _ => None))
           [sample_web; sample_db] "web"
           (container_entry (relevant_networks sample_collector sample_web))
           "host" (make_attachment 1 [("Gateway", "10.0.0.1")])).
  - reflexivity.
  - exact sample_web_in_inventory.
  - vm_compute. apply list_elem_of_further, list_elem_of_here.
Defined.

(** C8, as stated, fails: for the network [host] of the sample container the
    daemon reports neither address; the series published for it has the text
    "None" in both labels, and there is no series with the empty string or
    with "unknown" there. *)
Lemma gauge_absent_address_is_not_a_sentinel :
  let w' := (prometheus_cycle sample_collector
               (sample_world sample_daemon (fun _ => None))).2 in
  Dict.get "IPAddress" [("Gateway", "10.0.0.1")] = None
  ∧ Dict.get "MacAddress" [("Gateway", "10.0.0.1")] = None
  ∧ metrics w' !! ("web", "host", "eth1", "None", "None") = Some 1%Z
  ∧ metrics w' !! ("web", "host", "eth1", EmptyString, EmptyString) = None
  ∧ metrics w' !! ("web", "host", "eth1", "unknown", "unknown") = None
  ∧ size (metrics w') = 2.
Proof. by vm_compute. Qed.

(** ** The push driver *)

Lemma set_written_same w : set_written (written w) w = w.
Proof. by destruct w. Qed.

Lemma for_each_app {A} (xs ys : list A) (body : A → M unit) w :
  for_each (xs ++ ys) body w = (for_each xs body;; for_each ys body) w.
Proof.
  revert w. induction xs as [|x xs IH]; intros w; simpl; [done|].
  unfold mbind, M_bind in *. destruct (body x w) as [[| |] w1]; auto.
Qed.

Lemma write_points_flat self (interfaces : inventory) w :
  write_points self interfaces w
  = for_each (points_of interfaces) (write_point self) w.
Proof.
  unfold write_points, points_of. revert w.
  induction interfaces as [|[cname nets] inv IH]; intros w; simpl; [done|].
  rewrite for_each_app. unfold mbind, M_bind. rewrite for_each_fmap. simpl.
  destruct (for_each nets _ w) as [[| |] w1]; auto.
Qed.

Section push_driver_facts.
Variables (self : collector) (cfg : Dict.t value) (bucket org : value).
Hypothesis Hcfg : influx_config self = Some cfg.
Hypothesis Hbucket : Dict.get "bucket" cfg = Some bucket.
Hypothesis Horg : Dict.get "org" cfg = Some org.

Lemma write_point_run p w :
  write_point self p w =
  let w' := set_written (written w ++ requests_of bucket org [p]) w in
  match influx_write w (length (written w)) with
  | Some e => (Raise e, w')
  | None => (Ok tt, w')
  end.
Proof.
  unfold write_point, subscript. rewrite Hcfg, Hbucket, Horg.
  unfold mbind, M_bind, mret, M_ret, write_api_write. simpl.
  by destruct (influx_write w (length (written w))).
Qed.

Lemma write_each_ok pts w :
  (∀ i, i < length pts → influx_write w (length (written w) + i) = None) →
  for_each pts (write_point self) w
  = (Ok tt, set_written (written w ++ requests_of bucket org pts) w).
Proof.
  revert w. induction pts as [|p pts IH]; intros w Hok; simpl.
  - by rewrite app_nil_r, set_written_same.
  - unfold mbind, M_bind. rewrite write_point_run. simpl.
    rewrite <-(Nat.add_0_r (length (written w))), Hok by (simpl; lia).
    rewrite IH.
    + simpl. by rewrite <-app_assoc.
    + intros i Hi. simpl. rewrite length_app. simpl.
      rewrite <-Nat.add_assoc. apply Hok. simpl. lia.
Qed.

(** The writes of a round stop at the first one that raises. *)
Lemma write_each_fail pre p post e w :
  (∀ i, i < length pre → influx_write w (length (written w) + i) = None) →
  influx_write w (length (written w) + length pre) = Some e →
  for_each (pre ++ p :: post) (write_point self) w
  = (Raise e,
     set_written (written w ++ requests_of bucket org (pre ++ [p])) w).
Proof.
  intros Hok Hfail. rewrite for_each_app. unfold mbind, M_bind.
  rewrite write_each_ok by done. simpl.
  unfold mbind, M_bind. rewrite write_point_run. simpl.
  rewrite length_app. unfold requests_of at 1. rewrite length_fmap, Hfail.
  unfold requests_of. by rewrite fmap_app, <-app_assoc.
Qed.

Lemma influxdb_cycle_write_failure cs pre p post e w :
  docker_list w (polls w) = inr cs →
  points_of (collect self cs) = pre ++ p :: post →
  (∀ i, i < length pre → influx_write w (length (written w) + i) = None) →
  influx_write w (length (written w) + length pre) = Some e →
  influxdb_cycle self w
  = (Raise e,
     set_written (written w ++ requests_of bucket org (pre ++ [p]))
       (set_polls (S (polls w)) w)).
Proof.
  intros Hq Hpts Hok Hfail. unfold influxdb_cycle.
  unfold mbind at 1, M_bind at 1. rewrite (resolver_run_ok _ _ _ Hq).
  unfold mbind, M_bind. rewrite write_points_flat, Hpts.
  rewrite (write_each_fail pre p post e); [done|exact Hok|exact Hfail].
Qed.

End push_driver_facts.

Lemma while_true_raise fuel body w e w' :
  body w = (Raise e, w') → while_true (S fuel) body w = (Raise e, w').
Proof. intros H. simpl. unfold mbind, M_bind. by rewrite H. Qed.

Lemma while_true_cycles k fuel body w w' :
  cycles k body w = (Ok tt, w') →
  while_true (k + fuel) body w = while_true fuel body w'.
Proof.
  revert w. induction k as [|k IH]; intros w; simpl.
  - by intros [= ->].
  - unfold mbind, M_bind. destruct (body w) as [[[]| |] w1]; [|done..].
    apply IH.
Qed.

Lemma run_influxdb_exporter_started self cfg url token org fuel w :
  has_influxdb_client w = true →
  influx_config self = Some cfg →
  Dict.get "url" cfg = Some url →
  Dict.get "token" cfg = Some token →
  Dict.get "org" cfg = Some org →
  run_influxdb_exporter fuel self w =
  match while_true fuel (influxdb_cycle self) (influx_started url w) with
  | (Raise e, w') =>
      if is_ImportError e
      then (print "Error: influxdb-client package is required for InfluxDB mode.";;
            print "Please install it using: pip install influxdb-client";;
            sys_exit 1) w'
      else (Raise e, w')
  | r => r
  end.
Proof.
  intros Hlib Hcfg Hurl Htoken Horg.
  unfold run_influxdb_exporter, try_except, import_module, subscript.
  rewrite Hcfg, Hurl, Htoken, Horg.
  unfold mbind at 1 2 3 4 5 6, M_bind at 1 2 3 4 5 6, mret, M_ret, print at 1.
  rewrite Hlib. reflexivity.
Qed.

(** C1, amended: the push driver has no handler for the failure of a write.
    If, after any number of complete rounds, a write of the current round
    raises, the round and the loop end there: the points before it in the
    round were written, the points after it are not attempted, no later
    round is run and the driver terminates.  The exception leaves the driver
    as it is, with nothing printed; only an [ImportError] meets the one
    handler of the driver, which prints its two lines about the missing
    package and exits with code 1. *)
Theorem influx_write_failure_ends_driver
    self cfg url token org bucket k fuel w0 w cs pre p post e :
  has_influxdb_client w0 = true →
  influx_config self = Some cfg →
  Dict.get "url" cfg = Some url →
  Dict.get "token" cfg = Some token →
  Dict.get "org" cfg = Some org →
  Dict.get "bucket" cfg = Some bucket →
  cycles k (influxdb_cycle self) (influx_started url w0) = (Ok tt, w) →
  docker_list w (polls w) = inr cs →
  points_of (collect self cs) = pre ++ p :: post →
  (∀ i, i < length pre → influx_write w (length (written w) + i) = None) →
  influx_write w (length (written w) + length pre) = Some e →
  let w1 := set_written (written w ++ requests_of bucket org (pre ++ [p]))
              (set_polls (S (polls w)) w) in
  ((∀ msg, e ≠ ImportError msg) →
   run_influxdb_exporter (k + S fuel) self w0 = (Raise e, w1))
  ∧ (∀ msg, e = ImportError msg →
     run_influxdb_exporter (k + S fuel) self w0
     = (Raise (SystemExit 1),
        set_stdout
          (stdout w1
           ++ ["Error: influxdb-client package is required for InfluxDB mode.";
               "Please install it using: pip install influxdb-client"]) w1))
  ∧ ∃ e' w', run_influxdb_exporter (k + S fuel) self w0 = (Raise e', w')
      ∧ written w' = written w ++ requests_of bucket org (pre ++ [p])
      ∧ polls w' = S (polls w).
Proof.
  intros Hlib Hcfg Hurl Htoken Horg Hbucket Hk Hq Hpts Hok Hfail w1.
  rewrite (run_influxdb_exporter_started _ _ _ _ _ _ _
             Hlib Hcfg Hurl Htoken Horg).
  rewrite (while_true_cycles _ _ _ _ _ Hk).
  rewrite (while_true_raise _ _ _ _ _
             (influxdb_cycle_write_failure self cfg bucket org
                Hcfg Hbucket Horg cs pre p post e w Hq Hpts Hok Hfail)).
  fold w1. split_and!.
  - intros Hne. destruct e; try done. by destruct (Hne msg).
  - intros msg ->. simpl. unfold mbind, M_bind, print, sys_exit, raise. simpl.
    by rewrite <-app_assoc.
  - destruct (is_ImportError e); by eexists _, _.
Qed.

(** The first round writes its two points; the first write of the second
    round, write number 2, is refused. *)
Lemma influx_write_failure_ends_driver_witness :
  let w0 := sample_world sample_daemon (failing_backend 2) in
  let w := (cycles 1 (influxdb_cycle sample_influx_collector)
              (influx_started (VStr "http://influx:8086") w0)).2 in
  let p := make_point "web" "bridge"
             (make_attachment 0
                [("IPAddress", "172.17.0.2"); ("MacAddress", "AA:BB")]) in
  run_influxdb_exporter (1 + 4) sample_influx_collector w0
  = (Raise (WriteError "timeout"),
     set_written (written w ++ requests_of (VStr "b") (VStr "o") ([] ++ [p]))
       (set_polls (S (polls w)) w)).
Proof.
  intros w0 w p.
  apply (influx_write_failure_ends_driver sample_influx_collector
           sample_influx_config (VStr "http://influx:8086") (VStr "t")
           (VStr "o") (VStr "b") 1 3 w0 w [sample_web; sample_db] [] p
           [make_point "web" "host"
              (make_attachment 1 [("Gateway", "10.0.0.1")])]
           (WriteError "timeout"));
    try reflexivity; try discriminate.
  intros i Hi. simpl in Hi. lia.
Defined.

(** C1, as stated, fails: the sample inventory has two points; when the
    backend refuses the first write, the driver raises, the second point of
    the round is never attempted, no second round is run, and the failure is
    not logged. *)
Lemma influx_write_failure_stops_the_loop :
  let r := run_influxdb_exporter 5 sample_influx_collector
             (sample_world sample_daemon (failing_backend 0)) in
  length (points_of (collect sample_influx_collector [sample_web; sample_db]))
  = 2
  ∧ r.1 = Raise (WriteError "timeout")
  ∧ length (written r.2) = 1
  ∧ polls r.2 = 1
  ∧ stdout r.2 = ["InfluxDB exporter started, writing to http://influx:8086"].
Proof. by vm_compute. Qed.

(** ** Occurrences in the JSON rendering *)

Lemma string_app_cons c s t : String c s +:+ t = String c (s +:+ t).
Proof. reflexivity. Qed.

Lemma string_app_nil_r s : s +:+ EmptyString = s.
Proof. induction s as [|c s IH]; [done|]. by rewrite string_app_cons, IH. Qed.

Lemma string_app_assoc s t u : (s +:+ t) +:+ u = s +:+ t +:+ u.
Proof.
  induction s as [|c s IH]; [done|]. by rewrite !string_app_cons, IH.
Qed.

Lemma occurs_in_refl s : occurs_in s s.
Proof. exists EmptyString, EmptyString. by rewrite string_app_nil_r. Qed.

Lemma occurs_in_app_l s t u : occurs_in s t → occurs_in s (t +:+ u).
Proof.
  intros (a & b & ->). exists a, (b +:+ u). by rewrite !string_app_assoc.
Qed.

Lemma occurs_in_app_r s t u : occurs_in s t → occurs_in s (u +:+ t).
Proof.
  intros (a & b & ->). exists (u +:+ a), b. by rewrite !string_app_assoc.
Qed.

Lemma occurs_in_cons s t c : occurs_in s t → occurs_in s (String c t).
Proof. intros (a & b & ->). by exists (String c a), b. Qed.

Lemma occurs_in_trans s t u : occurs_in s t → occurs_in t u → occurs_in s u.
Proof.
  intros (a & b & ->) (a' & b' & ->). exists (a' +:+ a), (b +:+ b').
  by rewrite !string_app_assoc.
Qed.

Lemma occurs_in_concat sep (l : list string) x :
  x ∈ l → occurs_in x (String.concat sep l).
Proof.
  induction l as [|y l IH]; [by intros ?%elem_of_nil|].
  intros [->|Hx]%elem_of_cons; simpl.
  - destruct l; [apply occurs_in_refl|]. apply occurs_in_app_l, occurs_in_refl.
  - destruct l as [|z l]; [by apply elem_of_nil in Hx|].
    by apply occurs_in_app_r, occurs_in_app_r, IH.
Qed.

Lemma occurs_in_json_object level (members : list (string * string)) kv x :
  kv ∈ members → occurs_in x (json_member kv) →
  occurs_in x (json_object level members).
Proof.
  intros Hkv Hx. unfold json_object.
  destruct members as [|m members]; [by apply elem_of_nil in Hkv|].
  apply occurs_in_app_r, occurs_in_app_r, occurs_in_app_l.
  apply occurs_in_trans with (json_member kv); [done|].
  apply occurs_in_concat. by apply list_elem_of_fmap_2.
Qed.

Lemma occurs_in_member_key k v : occurs_in (json_string k) (json_member (k, v)).
Proof. apply occurs_in_app_l, occurs_in_refl. Qed.

Lemma occurs_in_member_value k v : occurs_in v (json_member (k, v)).
Proof. apply occurs_in_app_r, occurs_in_app_r, occurs_in_refl. Qed.

Lemma occurs_in_dumps_attachment level a :
  occurs_in (json_string (eth_interface a)) (dumps_attachment level a)
  ∧ occurs_in (json_opt_string (ip_address a)) (dumps_attachment level a)
  ∧ occurs_in (json_opt_string (mac_address a)) (dumps_attachment level a).
Proof.
  unfold dumps_attachment. split_and!.
  - eapply occurs_in_json_object; [|apply occurs_in_member_value].
    apply list_elem_of_here.
  - eapply occurs_in_json_object; [|apply occurs_in_member_value].
    apply list_elem_of_further, list_elem_of_here.
  - eapply occurs_in_json_object; [|apply occurs_in_member_value].
    do 2 apply list_elem_of_further. apply list_elem_of_here.
Qed.

Lemma occurs_in_dumps_networks level (nets : Dict.t attachment) n a :
  (n, a) ∈ nets →
  occurs_in (json_string n) (dumps_networks level nets)
  ∧ occurs_in (dumps_attachment (S level) a) (dumps_networks level nets).
Proof.
  intros Hna. unfold dumps_networks.
  assert ((n, dumps_attachment (S level) a)
          ∈ (fun kv : string * attachment =>
               (kv.1, dumps_attachment (S level) kv.2)) <$> nets) as Hm.
  { apply list_elem_of_fmap. by exists (n, a). }
  split.
  - eapply occurs_in_json_object; [exact Hm|apply occurs_in_member_key].
  - eapply occurs_in_json_object; [exact Hm|apply occurs_in_member_value].
Qed.

Lemma occurs_in_json_dumps (interfaces : inventory) cname nets :
  (cname, nets) ∈ interfaces →
  occurs_in (json_string cname) (json_dumps interfaces)
  ∧ occurs_in (dumps_networks 1 nets) (json_dumps interfaces).
Proof.
  intros Hin. unfold json_dumps.
  assert ((cname, dumps_networks 1 nets)
          ∈ (fun kv : string * Dict.t attachment =>
               (kv.1, dumps_networks 1 kv.2)) <$> interfaces) as Hm.
  { apply list_elem_of_fmap. by exists (cname, nets). }
  split.
  - eapply occurs_in_json_object; [exact Hm|apply occurs_in_member_key].
  - eapply occurs_in_json_object; [exact Hm|apply occurs_in_member_value].
Qed.

(** The rendering of an inventory has the JSON literal of every container
    name, network name, interface id and address in it ([null] for an address
    that is [None]). *)
Lemma json_dumps_mentions (interfaces : inventory) cname nets n a :
  (cname, nets) ∈ interfaces → (n, a) ∈ nets →
  let out := json_dumps interfaces in
  occurs_in (json_string cname) out
  ∧ occurs_in (json_string n) out
  ∧ occurs_in (json_string (eth_interface a)) out
  ∧ occurs_in (json_opt_string (ip_address a)) out
  ∧ occurs_in (json_opt_string (mac_address a)) out.
Proof.
  intros Hin Hna out.
  destruct (occurs_in_json_dumps _ _ _ Hin) as [Hc Hnets].
  destruct (occurs_in_dumps_networks 1 _ _ _ Hna) as [Hn Ha].
  destruct (occurs_in_dumps_attachment 2 a) as (He & Hi & Hm).
  split_and!; eauto using occurs_in_trans.
Qed.

Lemma json_escape_plain s : all_plain s = true → json_escape s = s.
Proof.
  induction s as [|c s IH]; simpl; [done|].
  intros [Hc Hs]%andb_true_iff. unfold json_escape_char.
  rewrite Hc, IH by done. reflexivity.
Qed.

Lemma occurs_in_json_string_plain s :
  all_plain s = true → occurs_in s (json_string s).
Proof.
  intros Hs. unfold json_string. rewrite json_escape_plain by done.
  apply occurs_in_cons, occurs_in_app_l, occurs_in_refl.
Qed.

Lemma plain_text_all_plain s : plain_text s → all_plain s = true.
Proof.
  unfold plain_text. induction s as [|c s IH]; simpl; [done|].
  intros [([Hlo Hhi] & Hq & Hb) Hs]%Forall_cons.
  rewrite IH by done. unfold json_plain, dquote, backslash.
  rewrite (proj2 (N.leb_le _ _) Hlo), (proj2 (N.leb_le _ _) Hhi).
  by rewrite !bool_decide_false by done.
Qed.

Lemma occurs_in_plain_text s out :
  plain_text s → occurs_in (json_string s) out → occurs_in s out.
Proof.
  intros Hs%plain_text_all_plain. apply occurs_in_trans.
  by apply occurs_in_json_string_plain.
Qed.

Lemma all_plain_app s t : all_plain (s +:+ t) = all_plain s && all_plain t.
Proof.
  induction s as [|c s IH]; [done|].
  rewrite string_app_cons. simpl. rewrite IH. by rewrite andb_assoc.
Qed.

Lemma json_plain_digit x : json_plain (pretty_N_char x) = true.
Proof. unfold pretty_N_char. by repeat case_match. Qed.

Lemma all_plain_pretty_N_go x s :
  all_plain s = true → all_plain (pretty_N_go x s) = true.
Proof.
  revert s. induction (N.lt_wf_0 x) as [x _ IH]; intros s Hs.
  destruct (decide (0 < x)%N) as [Hx|Hx].
  - rewrite pretty_N_go_step by done. apply IH; [by apply N.div_lt|].
    simpl. by rewrite json_plain_digit.
  - assert (x = 0%N) as -> by lia. by rewrite pretty_N_go_0.
Qed.

Lemma all_plain_eth (i : nat) : all_plain ("eth" +:+ pretty i) = true.
Proof.
  rewrite all_plain_app. simpl.
  unfold pretty, pretty_nat, pretty, pretty_N.
  case_decide; [done|]. by apply all_plain_pretty_N_go.
Qed.

(** The interface ids the resolver assigns need no escape. *)
Lemma collect_eth_plain self cs cname nets n a :
  (cname, nets) ∈ collect self cs → (n, a) ∈ nets →
  all_plain (eth_interface a) = true.
Proof.
  intros (c & _ & _ & _ & ->)%collect_elem Hna.
  apply container_entry_elem in Hna as (i & info & _ & ->).
  apply all_plain_eth.
Qed.

(** ** The local-once driver, set_mode, run *)

Lemma run_local_output_run self w :
  run_local_output self w =
  let w1 := set_polls (S (polls w)) w in
  match docker_list w (polls w) with
  | inr cs =>
      match collect self cs with
      | [] => (Ok tt, set_stdout (stdout w ++ [nothing_found]) w1)
      | _ :: _ =>
          (Ok tt, set_stdout (stdout w ++ [json_dumps (collect self cs)]) w1)
      end
  | inl e =>
      if is_APIError e
      then (Ok tt,
            set_stdout
              (stdout w ++ ["Error accessing Docker API: " +:+ exn_str e;
                            nothing_found]) w1)
      else (Raise e, w1)
  end.
Proof.
  unfold run_local_output. unfold mbind, M_bind. rewrite resolver_run. simpl.
  destruct (docker_list w (polls w)) as [e|cs].
  - destruct (is_APIError e); [|done]. unfold print. simpl.
    by rewrite <-app_assoc.
  - by destruct (collect self cs).
Qed.

Lemma run_local_output_once self w :
  (run_local_output self w).1 ≠ OutOfFuel
  ∧ polls (run_local_output self w).2 = S (polls w).
Proof.
  rewrite run_local_output_run. cbv zeta.
  destruct (docker_list w (polls w)) as [e|cs].
  - by destruct (is_APIError e).
  - by destruct (collect self cs).
Qed.

(** C7, amended: the local-once driver queries the daemon once and does not
    loop.  When the daemon answers with a non-empty inventory it prints the
    JSON rendering of the inventory, and nothing else; the rendering has
    every container name, network name, interface id and reported address in
    it, as a JSON string literal and, for text without characters that JSON
    escapes, as it is.  When the inventory is empty it prints the notice:
    standard output gets exactly that one line when the daemon answered, and
    the line of the resolver about the error followed by the notice when the
    query failed with an API error. *)
Theorem local_once_output self w :
  let r := run_local_output self w in
  polls r.2 = S (polls w)
  ∧ r.1 ≠ OutOfFuel
  ∧ (∀ cs, docker_list w (polls w) = inr cs →
       r.1 = Ok tt
       ∧ (collect self cs = [] → stdout r.2 = stdout w ++ [nothing_found])
       ∧ (collect self cs ≠ [] →
          stdout r.2 = stdout w ++ [json_dumps (collect self cs)]
          ∧ ∀ cname nets n a,
              (cname, nets) ∈ collect self cs → (n, a) ∈ nets →
              let out := json_dumps (collect self cs) in
              (occurs_in (json_string cname) out
               ∧ occurs_in (json_string n) out
               ∧ occurs_in (json_string (eth_interface a)) out
               ∧ occurs_in (json_opt_string (ip_address a)) out
               ∧ occurs_in (json_opt_string (mac_address a)) out)
              ∧ (plain_text cname → occurs_in cname out)
              ∧ (plain_text n → occurs_in n out)
              ∧ occurs_in (eth_interface a) out
              ∧ (∀ ip, ip_address a = Some ip → plain_text ip →
                       occurs_in ip out)
              ∧ (∀ mac, mac_address a = Some mac → plain_text mac →
                        occurs_in mac out)))
  ∧ (∀ msg, docker_list w (polls w) = inl (APIError msg) →
       r.1 = Ok tt
       ∧ stdout r.2
         = stdout w ++ ["Error accessing Docker API: " +:+ msg; nothing_found]).
Proof.
  intros r. subst r. rewrite run_local_output_run. cbv zeta. split_and!.
  - destruct (docker_list w (polls w)) as [e|cs].
    + by destruct (is_APIError e).
    + by destruct (collect self cs).
  - destruct (docker_list w (polls w)) as [e|cs].
    + by destruct (is_APIError e).
    + by destruct (collect self cs).
  - intros cs ->. split_and!.
    + by destruct (collect self cs).
    + by intros ->.
    + intros Hne. split.
      * by destruct (collect self cs).
      * intros cname nets n a Hin Hna.
        destruct (json_dumps_mentions _ _ _ _ _ Hin Hna)
          as (Hc & Hn & He & Hi & Hm).
        split; [done|]. split_and!.
        -- intros Hp. by apply occurs_in_plain_text.
        -- intros Hp. by apply occurs_in_plain_text.
        -- eapply occurs_in_trans; [|exact He].
           apply occurs_in_json_string_plain.
           by apply (collect_eth_plain self cs cname nets n).
        -- intros ip Hip Hp. rewrite Hip in Hi.
           by apply occurs_in_plain_text.
        -- intros mac Hmac Hp. rewrite Hmac in Hm.
           by apply occurs_in_plain_text.
  - by intros msg ->.
Qed.

(** C7, as stated, fails when the query failed with an API error: the
    inventory is empty, and standard output holds two lines, the error line
    of the resolver and the notice. *)
Lemma local_output_after_api_error_has_two_lines :
  let w := sample_world (fun _ => inl (APIError "500 Server Error"))
             (fun _ => None) in
  let r := run_local_output sample_collector w in
  (get_container_network_interfaces sample_collector w).1 = Ok Dict.empty
  ∧ r.1 = Ok tt
  ∧ stdout r.2
    = ["Error accessing Docker API: 500 Server Error";
       "No containers found in the specified networks."]
  ∧ stdout r.2 ≠ ["No containers found in the specified networks."].
Proof. by vm_compute. Qed.

(** C9: [set_mode] writes the mode and, for "prometheus", the port, for
    "influxdb", the configuration; the other attributes keep their values. *)
Theorem set_mode_frame self kwargs :
  (let s' := set_mode "prometheus" kwargs self in
   mode s' = "prometheus"
   ∧ prometheus_port s' = default VNone (Dict.get "port" kwargs)
   ∧ influx_config s' = influx_config self
   ∧ network_names s' = network_names self)
  ∧ (∀ p, prometheus_port (set_mode "prometheus" [("port", p)] self) = p)
  ∧ (let s' := set_mode "influxdb" kwargs self in
     mode s' = "influxdb"
     ∧ influx_config s' = Some kwargs
     ∧ prometheus_port s' = prometheus_port self
     ∧ network_names s' = network_names self)
  ∧ (∀ m, m ≠ "prometheus" → m ≠ "influxdb" →
     let s' := set_mode m kwargs self in
     mode s' = m
     ∧ prometheus_port s' = prometheus_port self
     ∧ influx_config s' = influx_config self
     ∧ network_names s' = network_names self).
Proof.
  split_and!; try done.
  intros m H1 H2. unfold set_mode. by rewrite !decide_False by done.
Qed.

Lemma set_mode_frame_witness :
  let s' := set_mode "local" [("port", VInt 9100)] sample_influx_collector in
  mode s' = "local"
  ∧ prometheus_port s' = prometheus_port sample_influx_collector
  ∧ influx_config s' = influx_config sample_influx_collector
  ∧ network_names s' = network_names sample_influx_collector.
Proof.
  apply (proj2 (proj2 (proj2
           (set_mode_frame sample_influx_collector [("port", VInt 9100)])))
           "local");
    discriminate.
Defined.

(** C10: with any mode other than "prometheus" and "influxdb", and so for a
    collector fresh from the constructor, [run] is the local-once driver: one
    query, no loop. *)
Theorem run_defaults_to_local_output fuel self w :
  mode self ≠ "prometheus" → mode self ≠ "influxdb" →
  run fuel self w = run_local_output self w
  ∧ (run fuel self w).1 ≠ OutOfFuel
  ∧ polls (run fuel self w).2 = S (polls w)
  ∧ ∀ names, run fuel (new_collector names) w
             = run_local_output (new_collector names) w.
Proof.
  intros H1 H2. unfold run. rewrite !decide_False by done.
  destruct (run_local_output_once self w) as [Hf Hp]. by split_and!.
Qed.

Lemma run_defaults_to_local_output_witness :
  let self := set_mode "stdout" [] sample_collector in
  let w := sample_world sample_daemon (fun _ => None) in
  run 0 self w = run_local_output self w
  ∧ (run 0 self w).1 ≠ OutOfFuel
  ∧ polls (run 0 self w).2 = S (polls w)
  ∧ ∀ names, run 0 (new_collector names) w
             = run_local_output (new_collector names) w.
Proof.
  apply (run_defaults_to_local_output 0 (set_mode "stdout" [] sample_collector)
           (sample_world sample_daemon (fun _ => None)));
    discriminate.
Defined.

Lemma local_once_output_witness :
  let w := sample_world sample_daemon (fun _ => None) in
  let r := run_local_output sample_collector w in
  let inv := collect sample_collector [sample_web; sample_db] in
  let out := json_dumps inv in
  stdout r.2 = stdout w ++ [out]
  ∧ occurs_in "web" out ∧ occurs_in "bridge" out ∧ occurs_in "eth0" out
  ∧ occurs_in "172.17.0.2" out ∧ occurs_in "AA:BB" out.
Proof.
  intros w r inv out.
  destruct (proj1 (proj2 (proj2 (local_once_output sample_collector w)))
              [sample_web; sample_db] eq_refl) as (_ & _ & Hout).
  destruct Hout as [Hstdout Hnames]; [by vm_compute|].
  split; [exact Hstdout|].
  destruct (Hnames "web"
              (container_entry (relevant_networks sample_collector sample_web))
              "bridge"
              (make_attachment 0
                 [("IPAddress", "172.17.0.2"); ("MacAddress", "AA:BB")]))
    as (_ & Hc & Hn & He & Hi & Hm).
  { exact sample_web_in_inventory. }
  { vm_compute. apply list_elem_of_here. }
  split_and!.
  - apply Hc. unfold plain_text. simpl. repeat constructor; (lia || discriminate).
  - apply Hn. unfold plain_text. simpl. repeat constructor; (lia || discriminate).
  - exact He.
  - apply (Hi "172.17.0.2"); [reflexivity|].
    unfold plain_text. simpl. repeat constructor; (lia || discriminate).
  - apply (Hm "AA:BB"); [reflexivity|].
    unfold plain_text. simpl. repeat constructor; (lia || discriminate).
Defined.

(** The container name, network name, interface id and address of the
    sample inventory occur as they are in what the local-once driver
    prints. *)
Example sample_rendering_mentions :
  let out := json_dumps (collect sample_collector [sample_web; sample_db]) in
  stdout (run_local_output sample_collector
            (sample_world sample_daemon (fun _ => None))).2 = [out]
  ∧ occurs_in "web" out ∧ occurs_in "bridge" out
  ∧ occurs_in "eth0" out ∧ occurs_in "172.17.0.2" out.
Proof.
  intros out. split; [reflexivity|].
  assert (("web", container_entry
                    (relevant_networks sample_collector sample_web))
          ∈ collect sample_collector [sample_web; sample_db]) as Hin
    by exact sample_web_in_inventory.
  assert (("bridge", make_attachment 0
             [("IPAddress", "172.17.0.2"); ("MacAddress", "AA:BB")])
          ∈ container_entry (relevant_networks sample_collector sample_web))
    as Hna by (vm_compute; apply list_elem_of_here).
  destruct (json_dumps_mentions _ _ _ _ _ Hin Hna) as (Hc & Hn & He & Hi & _).
  split_and!;
    (eapply occurs_in_trans; [apply occurs_in_json_string_plain|eassumption]);
    reflexivity.
Qed.

(** ** main *)

Lemma missing_vars_env environ :
  missing_vars (influx_config_of_env environ) = unset_keys environ.
Proof.
  unfold missing_vars, unset_keys, influx_config_of_env, required_env, getenv,
    getenv_default.
  rewrite !filter_cons, !filter_nil. simpl.
  destruct (environ !! "INFLUXDB_TOKEN"), (environ !! "INFLUXDB_ORG"),
    (environ !! "INFLUXDB_BUCKET"); reflexivity.
Qed.

(** C2, amended: when [--influxdb] is chosen and at least one of
    [INFLUXDB_TOKEN], [INFLUXDB_ORG], [INFLUXDB_BUCKET] is not set, [main]
    prints one line that lists the configuration key of every one of them
    that is not set and exits with code 1, before any query or write.
    [INFLUXDB_URL] is never in the list: when the three others are set,
    [main] does not exit but runs the push driver, with the value of
    [INFLUXDB_URL] as the URL, or [http://localhost:8086] without it. *)
Theorem main_reports_missing_influx_variables fuel args environ w :
  port_given (prometheus args) = false →
  influxdb args = true →
  (unset_keys environ ≠ [] →
   main fuel args environ w
   = (Raise (SystemExit 1),
      set_stdout
        (stdout w ++ ["Error: Missing required environment variables: "
                      +:+ String.concat ", " (unset_keys environ)]) w))
  ∧ (∀ kv, kv ∈ required_env → environ !! kv.2 = None →
           kv.1 ∈ unset_keys environ)
  ∧ ("url" ∉ unset_keys environ)
  ∧ (∀ token org bucket,
       environ !! "INFLUXDB_TOKEN" = Some token →
       environ !! "INFLUXDB_ORG" = Some org →
       environ !! "INFLUXDB_BUCKET" = Some bucket →
       main fuel args environ w
       = run_influxdb_exporter fuel
           {| network_names := networks args; mode := "influxdb";
              prometheus_port := VNone;
              influx_config :=
                Some [("url",
                       VStr (default "http://localhost:8086"
                               (environ !! "INFLUXDB_URL")));
                      ("token", VStr token); ("org", VStr org);
                      ("bucket", VStr bucket)] |} w).
Proof.
  intros Hport Hflag. split_and!.
  - intros Hmissing. unfold main. rewrite Hport, Hflag. cbv zeta.
    rewrite missing_vars_env.
    destruct (unset_keys environ) as [|k ks] eqn:Hk; [done|].
    reflexivity.
  - intros kv Hkv Hnone. unfold unset_keys.
    apply list_elem_of_fmap_2, list_elem_of_filter. by split.
  - unfold unset_keys.
    intros [[k var] [Hk [_ Hin]%list_elem_of_filter]]%list_elem_of_fmap.
    simpl in Hk. subst k. unfold required_env in Hin.
    repeat (apply elem_of_cons in Hin as [[=]|Hin]).
    by apply elem_of_nil in Hin.
  - intros token org bucket Htoken Horg Hbucket. unfold main.
    rewrite Hport, Hflag. cbv zeta. rewrite missing_vars_env.
    unfold unset_keys, required_env. rewrite !filter_cons, filter_nil. simpl.
    rewrite Htoken, Horg, Hbucket. simpl.
    unfold influx_config_of_env, getenv, getenv_default.
    by rewrite Htoken, Horg, Hbucket.
Qed.

Lemma main_reports_missing_influx_variables_witness :
  let w := sample_world sample_daemon (fun _ => None) in
  main 3 sample_influx_args environ_without_credentials w
  = (Raise (SystemExit 1),
     set_stdout
       (stdout w ++ ["Error: Missing required environment variables: "
                     +:+ String.concat ", "
                           (unset_keys environ_without_credentials)]) w)
  ∧ main 3 sample_influx_args environ_without_url w
    = run_influxdb_exporter 3
        {| network_names := networks sample_influx_args; mode := "influxdb";
           prometheus_port := VNone;
           influx_config :=
             Some [("url",
                    VStr (default "http://localhost:8086"
                            (environ_without_url !! "INFLUXDB_URL")));
                   ("token", VStr "t"); ("org", VStr "o");
                   ("bucket", VStr "b")] |} w.
Proof.
  intros w. split.
  - apply (proj1 (main_reports_missing_influx_variables 3 sample_influx_args
                    environ_without_credentials w eq_refl eq_refl)).
    vm_compute. discriminate.
  - apply (proj2 (proj2 (proj2
             (main_reports_missing_influx_variables 3 sample_influx_args
                environ_without_url w eq_refl eq_refl))) "t" "o" "b");
      reflexivity.
Defined.

Example missing_credentials_message :
  stdout (main 3 sample_influx_args environ_without_credentials
            (sample_world sample_daemon (fun _ => None))).2
  = ["Error: Missing required environment variables: token, org"].
Proof. reflexivity. Qed.

(** C2, as stated, fails for the URL: with the three credentials set and no
    [INFLUXDB_URL], [main] does not exit; the driver starts on the default
    URL and is still in its loop, two rounds and four writes later. *)
Lemma main_starts_without_influxdb_url :
  let r := main 2 sample_influx_args environ_without_url
             (sample_world sample_daemon (fun _ => None)) in
  environ_without_url !! "INFLUXDB_URL" = None
  ∧ r.1 = OutOfFuel
  ∧ r.1 ≠ Raise (SystemExit 1)
  ∧ stdout r.2
    = ["InfluxDB exporter started, writing to http://localhost:8086"]
  ∧ polls r.2 = 2
  ∧ length (written r.2) = 4.
Proof. by vm_compute. Qed.

(** * Further properties of the code *)

(** ** The resolver, by container *)

Section dict_get_set.
Context {V : Type}.
Implicit Types (d : Dict.t V) (k : string) (v : V).

Lemma dict_get_set_eq k v d : Dict.get k (Dict.set k v d) = Some v.
Proof.
  induction d as [|[k' v'] d IH]; simpl.
  - by rewrite decide_True.
  - destruct (decide (k' = k)) as [->|Hne]; simpl.
    + by rewrite decide_True.
    + by rewrite decide_False.
Qed.

Lemma dict_get_set_ne k k' v d :
  k ≠ k' → Dict.get k' (Dict.set k v d) = Dict.get k' d.
Proof.
  intros Hne. induction d as [|[k0 v0] d IH]; simpl.
  - by rewrite decide_False.
  - destruct (decide (k0 = k)) as [->|Hne0]; simpl.
    + by rewrite !decide_False.
    + by rewrite IH.
Qed.

Lemma dict_set_keys_fresh k v d :
  k ∉ Dict.keys d → Dict.keys (Dict.set k v d) = Dict.keys d ++ [k].
Proof.
  intros Hk. rewrite dict_set_fresh by done. unfold Dict.keys.
  by rewrite fmap_app.
Qed.

End dict_get_set.

Lemma collect_snoc self cs c :
  collect self (cs ++ [c]) = collect_container self (collect self cs) c.
Proof. unfold collect. by rewrite fold_left_app. Qed.

Lemma collect_container_get_other self acc c k :
  name c ≠ k →
  Dict.get k (collect_container self acc c) = Dict.get k acc.
Proof.
  intros Hne. unfold collect_container.
  destruct (relevant_networks self c); [done|]. by apply dict_get_set_ne.
Qed.

Lemma collect_container_get_no_match self acc c k :
  matching self c = [] →
  Dict.get k (collect_container self acc c) = Dict.get k acc.
Proof.
  intros Hm%relevant_networks_nil. unfold collect_container. by rewrite Hm.
Qed.

Lemma collect_container_get_match self acc c :
  has_match self c →
  Dict.get (name c) (collect_container self acc c)
  = Some (container_entry (relevant_networks self c)).
Proof.
  intros Hm. unfold collect_container.
  destruct (relevant_networks self c) as [|x rel] eqn:Hrel.
  - by apply relevant_networks_nil in Hrel.
  - apply dict_get_set_eq.
Qed.

(** The entry of a name is the one of the last container of that name that
    has a network on the allow-list. *)
Lemma collect_get_last self pre c post :
  has_match self c →
  (∀ c', c' ∈ post → name c' = name c → matching self c' = []) →
  Dict.get (name c) (collect self (pre ++ c :: post))
  = Some (container_entry (relevant_networks self c)).
Proof.
  intros Hm. induction post as [|c' post IH] using rev_ind; intros Hpost.
  - rewrite collect_snoc. by apply collect_container_get_match.
  - replace (pre ++ c :: post ++ [c']) with ((pre ++ c :: post) ++ [c'])
      by (by rewrite <-app_assoc).
    rewrite collect_snoc.
    destruct (decide (name c' = name c)) as [Heq|Hne].
    + rewrite collect_container_get_no_match.
      * apply IH. intros c'' Hc''. apply Hpost. apply elem_of_app. by left.
      * apply Hpost; [|done]. apply elem_of_app. right. by left.
    + rewrite collect_container_get_other by done.
      apply IH. intros c'' Hc''. apply Hpost. apply elem_of_app. by left.
Qed.

Lemma container_entry_entry_of self c :
  Dict.wf (networks_info c) →
  container_entry (relevant_networks self c) = entry_of self c.
Proof.
  intros Hwf. rewrite container_entry_imap by apply dict_of_items_is_wf.
  unfold entry_of. by rewrite relevant_networks_wf.
Qed.

(** X1: when container names are distinct, every container of the daemon's
    answer that has a network on the allow-list is a key of the resolver's
    result, and its value lists exactly its matching networks, in the
    daemon's order, numbered from 0, with the addresses of the metadata. *)
Theorem resolver_keeps_every_matching_container self w cs c :
  docker_list w (polls w) = inr cs →
  NoDup (name <$> cs) →
  c ∈ cs →
  Dict.wf (networks_info c) →
  has_match self c →
  ∃ inv w', get_container_network_interfaces self w = (Ok inv, w')
    ∧ Dict.get (name c) inv = Some (entry_of self c).
Proof.
  intros Hq Hnd Hc Hwf Hm. eexists _, _.
  split; [by apply resolver_run_ok|].
  apply list_elem_of_split in Hc as (pre & post & ->).
  rewrite collect_get_last; [by rewrite container_entry_entry_of|done|].
  intros c' Hc' Hname. exfalso.
  rewrite fmap_app, fmap_cons in Hnd.
  apply NoDup_app in Hnd as (_ & _ & Hnd). apply NoDup_cons in Hnd as [Hnd _].
  apply Hnd. rewrite <-Hname. by apply list_elem_of_fmap_2.
Qed.

Lemma resolver_keeps_every_matching_container_witness :
  ∃ inv w',
    get_container_network_interfaces sample_collector
      (sample_world sample_daemon (fun _ => None)) = (Ok inv, w')
    ∧ Dict.get (name sample_web) inv
      = Some (entry_of sample_collector sample_web).
Proof.
  apply (resolver_keeps_every_matching_container sample_collector
           (sample_world sample_daemon (fun _ => None))
           [sample_web; sample_db] sample_web).
  - reflexivity.
  - apply (bool_decide_unpack _). vm_compute. exact I.
  - apply list_elem_of_here.
  - apply sample_containers_wf, list_elem_of_here.
  - vm_compute. discriminate.
Defined.

(** X2: when two containers of the answer share a name, the later one with a
    network on the allow-list provides the value of that name; the earlier
    one is overwritten. *)
Theorem resolver_later_container_overwrites self w pre c1 mid c2 post :
  docker_list w (polls w) = inr (pre ++ c1 :: mid ++ c2 :: post) →
  name c1 = name c2 →
  has_match self c2 →
  (∀ c', c' ∈ post → name c' = name c2 → matching self c' = []) →
  ∃ inv w', get_container_network_interfaces self w = (Ok inv, w')
    ∧ Dict.get (name c1) inv
      = Some (container_entry (relevant_networks self c2)).
Proof.
  intros Hq Hname Hm Hpost. eexists _, _.
  split; [by apply resolver_run_ok|].
  rewrite Hname.
  replace (pre ++ c1 :: mid ++ c2 :: post)
    with ((pre ++ c1 :: mid) ++ c2 :: post) by (by rewrite <-app_assoc).
  by apply collect_get_last.
Qed.

Lemma resolver_later_container_overwrites_witness :
  ∃ inv w',
    get_container_network_interfaces sample_collector
      (sample_world (fun _ => inr [sample_web; sample_db; sample_web_twin])
         (fun _ => None)) = (Ok inv, w')
    ∧ Dict.get (name sample_web) inv
      = Some (container_entry
                (relevant_networks sample_collector sample_web_twin)).
Proof.
  apply (resolver_later_container_overwrites sample_collector
           (sample_world (fun _ => inr [sample_web; sample_db; sample_web_twin])
              (fun _ => None))
           [] sample_web [sample_db] sample_web_twin []).
  - reflexivity.
  - reflexivity.
  - vm_compute. discriminate.
  - intros c' Hc'. by apply elem_of_nil in Hc'.
Defined.

Lemma collect_container_wf self acc c :
  Dict.wf acc → Dict.wf (collect_container self acc c).
Proof.
  intros Hwf. unfold collect_container.
  destruct (relevant_networks self c); [done|]. by apply dict_set_wf.
Qed.

Lemma collect_wf self cs : Dict.wf (collect self cs).
Proof.
  induction cs as [|c cs IH] using rev_ind; [apply NoDup_nil_2|].
  rewrite collect_snoc. by apply collect_container_wf.
Qed.

(** X3: whatever the daemon answers, a mapping returned by the resolver has
    pairwise distinct container names, and the mapping of each container has
    pairwise distinct network names: no key is listed twice. *)
Theorem resolver_result_has_distinct_keys self w inv w' :
  get_container_network_interfaces self w = (Ok inv, w') →
  Dict.wf inv ∧ ∀ cname nets, (cname, nets) ∈ inv → Dict.wf nets.
Proof.
  rewrite resolver_run. cbv zeta.
  destruct (docker_list w (polls w)) as [e|cs].
  - destruct (is_APIError e); [|done]. intros [= <- _].
    split; [apply NoDup_nil_2|]. by intros ?? ?%elem_of_nil.
  - intros [= <- _]. split; [apply collect_wf|].
    intros cname nets (c & _ & _ & _ & ->)%collect_elem.
    apply dict_of_items_is_wf.
Qed.

Lemma resolver_result_has_distinct_keys_witness :
  let inv := collect sample_collector [sample_web; sample_db; sample_web_twin] in
  Dict.wf inv ∧ ∀ cname nets, (cname, nets) ∈ inv → Dict.wf nets.
Proof.
  apply (resolver_result_has_distinct_keys sample_collector
           (sample_world (fun _ => inr [sample_web; sample_db; sample_web_twin])
              (fun _ => None))
           _ (set_polls 1
                (sample_world
                   (fun _ => inr [sample_web; sample_db; sample_web_twin])
                   (fun _ => None)))).
  reflexivity.
Defined.

Lemma collect_keys_names self cs k :
  k ∈ Dict.keys (collect self cs) → k ∈ name <$> cs.
Proof.
  intros [[cname nets] [-> Hin]]%list_elem_of_fmap.
  apply collect_elem in Hin as (c & Hc & <- & _).
  simpl. by apply list_elem_of_fmap_2.
Qed.

(** X4: when container names are distinct, the keys of the resolver's result
    are the names of the containers that have a network on the allow-list, in
    the order of the daemon's answer. *)
Theorem resolver_keeps_container_order self w cs :
  docker_list w (polls w) = inr cs →
  NoDup (name <$> cs) →
  ∃ inv w', get_container_network_interfaces self w = (Ok inv, w')
    ∧ Dict.keys inv = name <$> filter (has_match self) cs.
Proof.
  intros Hq Hnd. eexists _, _. split; [by apply resolver_run_ok|].
  clear Hq. induction cs as [|c cs IH] using rev_ind; [done|].
  rewrite fmap_app in Hnd. apply NoDup_app in Hnd as (Hnd & Hfresh & _).
  rewrite collect_snoc, filter_app, fmap_app, <-IH by done.
  unfold collect_container. rewrite filter_cons, filter_nil.
  destruct (decide (has_match self c)) as [Hm|Hm].
  - destruct (relevant_networks self c) as [|x rel] eqn:Hrel.
    { by apply relevant_networks_nil in Hrel. }
    apply dict_set_keys_fresh. intros Hk%collect_keys_names.
    apply (Hfresh _ Hk). apply list_elem_of_here.
  - destruct (relevant_networks self c) as [|x rel] eqn:Hrel.
    { simpl. by rewrite app_nil_r. }
    exfalso. apply Hm. unfold has_match. intros Hnil.
    apply relevant_networks_nil in Hnil. by rewrite Hnil in Hrel.
Qed.

Lemma resolver_keeps_container_order_witness :
  ∃ inv w',
    get_container_network_interfaces sample_collector
      (sample_world sample_daemon (fun _ => None)) = (Ok inv, w')
    ∧ Dict.keys inv
      = name <$> filter (has_match sample_collector) [sample_web; sample_db].
Proof.
  apply (resolver_keeps_container_order sample_collector
           (sample_world sample_daemon (fun _ => None))
           [sample_web; sample_db]).
  - reflexivity.
  - apply (bool_decide_unpack _). vm_compute. exact I.
Defined.

Lemma matching_allow_list_ext s1 s2 c :
  (∀ n, n ∈ network_names s1 ↔ n ∈ network_names s2) →
  matching s1 c = matching s2 c.
Proof. intros H. unfold matching. apply list_filter_iff. intros kv. apply H. Qed.

Lemma collect_allow_list_ext s1 s2 cs :
  (∀ n, n ∈ network_names s1 ↔ n ∈ network_names s2) →
  collect s1 cs = collect s2 cs.
Proof.
  intros H. induction cs as [|c cs IH] using rev_ind; [done|].
  rewrite !collect_snoc, IH. unfold collect_container, relevant_networks.
  by rewrite (matching_allow_list_ext s1 s2 c H).
Qed.

(** X5: the resolver uses the allow-list as a set, and nothing else of the
    collector: two collectors whose lists have the same members, in whatever
    order, with whatever repetitions, mode, port and configuration, give the
    same result and the same output on every answer of the daemon. *)
Theorem resolver_reads_allow_list_as_set s1 s2 w :
  (∀ n, n ∈ network_names s1 ↔ n ∈ network_names s2) →
  get_container_network_interfaces s1 w
  = get_container_network_interfaces s2 w.
Proof.
  intros H. rewrite !resolver_run. cbv zeta.
  destruct (docker_list w (polls w)) as [e|cs]; [done|].
  by rewrite (collect_allow_list_ext s1 s2 cs H).
Qed.

Lemma resolver_reads_allow_list_as_set_witness :
  get_container_network_interfaces sample_collector
    (sample_world sample_daemon (fun _ => None))
  = get_container_network_interfaces
      (set_mode "prometheus" [("port", VInt 9100)]
         (new_collector ["host"; "bridge"; "host"]))
      (sample_world sample_daemon (fun _ => None)).
Proof.
  apply (resolver_reads_allow_list_as_set sample_collector
           (set_mode "prometheus" [("port", VInt 9100)]
              (new_collector ["host"; "bridge"; "host"]))).
  intros n. simpl. rewrite !elem_of_cons. tauto.
Defined.

Lemma collect_no_match self cs :
  (∀ c, c ∈ cs → matching self c = []) → collect self cs = [].
Proof.
  intros Hno. destruct (collect self cs) as [|[cname nets] inv] eqn:Hc; [done|].
  assert ((cname, nets) ∈ collect self cs) as Hin by (rewrite Hc; left).
  apply collect_elem in Hin as (c & Hcs & _ & Hne & _).
  exfalso. apply Hne, relevant_networks_nil. by apply Hno.
Qed.

(** X6: when no container of the answer has a network on the allow-list (an
    empty answer, an empty allow-list, containers without network settings),
    the local-once driver prints the notice and nothing else, and returns. *)
Theorem local_output_without_match self w cs :
  docker_list w (polls w) = inr cs →
  (∀ c, c ∈ cs → matching self c = []) →
  run_local_output self w
  = (Ok tt,
     set_stdout (stdout w ++ [nothing_found]) (set_polls (S (polls w)) w)).
Proof.
  intros Hq Hno. rewrite run_local_output_run, Hq. cbv zeta.
  by rewrite collect_no_match.
Qed.

Lemma local_output_without_match_witness :
  run_local_output (new_collector [])
    (sample_world sample_daemon (fun _ => None))
  = (Ok tt,
     set_stdout [nothing_found]
       (set_polls 1 (sample_world sample_daemon (fun _ => None)))).
Proof.
  apply (local_output_without_match (new_collector [])
           (sample_world sample_daemon (fun _ => None))
           [sample_web; sample_db]).
  - reflexivity.
  - intros c _. unfold matching.
    destruct (filter _ _) as [|kv l] eqn:Hf; [done|].
    assert (kv ∈ filter (allowed (new_collector [])) (networks_info c))
      as [Hkv _]%list_elem_of_filter by (rewrite Hf; left).
    by apply elem_of_nil in Hkv.
Defined.

(** ** The gauge driver, round after round *)

Lemma length_series_of (interfaces : inventory) :
  length (series_of interfaces) = attachment_count interfaces.
Proof.
  unfold series_of, attachment_count.
  induction interfaces as [|[cname nets] inv IH]; [done|].
  rewrite bind_cons, length_app, length_fmap, IH. reflexivity.
Qed.

Lemma dict_wf_unique {V} (d : Dict.t V) k v1 v2 :
  Dict.wf d → (k, v1) ∈ d → (k, v2) ∈ d → v1 = v2.
Proof.
  unfold Dict.wf, Dict.keys. induction d as [|[k' v'] d IH]; simpl.
  - by intros _ ?%elem_of_nil.
  - rewrite NoDup_cons. intros [Hk' Hd] H1 H2.
    apply elem_of_cons in H1 as [H1|H1];
      apply elem_of_cons in H2 as [H2|H2]; simplify_eq; auto.
    + exfalso. apply Hk'. apply list_elem_of_fmap. by exists (k', v2).
    + exfalso. apply Hk'. apply list_elem_of_fmap. by exists (k', v1).
Qed.

Lemma NoDup_series_of (interfaces : inventory) :
  Dict.wf interfaces →
  (∀ cname nets, (cname, nets) ∈ interfaces → Dict.wf nets) →
  NoDup (series_of interfaces).
Proof.
  intros Hwf Hnets. unfold series_of. apply NoDup_bind.
  - intros [c1 nets1] [c2 nets2] lv H1 H2 Hlv1 Hlv2. simpl in *.
    apply list_elem_of_fmap in Hlv1 as ([n1 a1] & -> & _).
    apply list_elem_of_fmap in Hlv2 as ([n2 a2] & Heq & _).
    unfold gauge_labels in Heq. simpl in Heq. injection Heq as -> _ _ _ _.
    f_equal. by apply (dict_wf_unique interfaces c2).
  - intros [cname nets] Hin. simpl.
    apply (NoDup_fmap_1 (fun lv : labelvalues => lv.1.1.1.2)).
    rewrite <-list_fmap_compose. by apply (Hnets cname).
  - by apply NoDup_fmap_1 in Hwf.
Qed.

Lemma size_publish_all (lvs : list labelvalues) (m : gmap labelvalues Z) :
  NoDup lvs → (∀ lv, lv ∈ lvs → m !! lv = None) →
  size (publish_all lvs m) = size m + length lvs.
Proof.
  revert m. induction lvs as [|lv lvs IH]; intros m Hnd Hfresh; simpl.
  - unfold publish_all. simpl. lia.
  - apply NoDup_cons in Hnd as [Hlv Hnd].
    unfold publish_all in *. simpl. rewrite IH; [|done|].
    + rewrite map_size_insert_None; [lia|]. apply Hfresh. by left.
    + intros lv' Hlv'. rewrite lookup_insert_ne by (by intros ->).
      apply Hfresh. by right.
Qed.

(** X7: after a round of the gauge loop in which the daemon answered, the
    table has one series for each attachment of the inventory: as many series
    as there are (container, network) pairs, whatever the table held
    before. *)
Theorem gauge_has_one_series_per_attachment self w cs :
  docker_list w (polls w) = inr cs →
  size (metrics (prometheus_cycle self w).2)
  = attachment_count (collect self cs).
Proof.
  intros Hq. rewrite prometheus_cycle_run, Hq. simpl.
  rewrite size_publish_all.
  - by rewrite map_size_empty, length_series_of.
  - apply NoDup_series_of; [apply collect_wf|].
    intros cname nets (c & _ & _ & _ & ->)%collect_elem.
    apply dict_of_items_is_wf.
  - intros lv _. apply lookup_empty.
Qed.

Lemma gauge_has_one_series_per_attachment_witness :
  size (metrics (prometheus_cycle sample_collector stale_world).2)
  = attachment_count (collect sample_collector [sample_web; sample_db]).
Proof.
  apply (gauge_has_one_series_per_attachment sample_collector stale_world
           [sample_web; sample_db]).
  reflexivity.
Defined.

Lemma prometheus_cycle_recoverable self w :
  match docker_list w (polls w) with
  | inr _ => True
  | inl e => is_APIError e = true
  end →
  ∃ w', prometheus_cycle self w = (Ok tt, w')
    ∧ docker_list w' = docker_list w
    ∧ polls w' = S (polls w)
    ∧ slept w' = slept w + 15
    ∧ http_port w' = http_port w
    ∧ stdout w `prefix_of` stdout w'.
Proof.
  intros Hq. rewrite prometheus_cycle_run. cbv zeta.
  destruct (docker_list w (polls w)) as [e|cs].
  - rewrite Hq. eexists. split; [done|]. simpl.
    split_and!; try done. by apply prefix_app_r.
  - eexists. split; [done|]. by simpl.
Qed.

Lemma prometheus_loop_keeps_running self fuel w :
  daemon_recoverable w fuel →
  ∃ w', while_true fuel (prometheus_cycle self) w = (OutOfFuel, w')
    ∧ polls w' = polls w + fuel
    ∧ slept w' = slept w + 15 * fuel
    ∧ http_port w' = http_port w
    ∧ stdout w `prefix_of` stdout w'.
Proof.
  revert w. induction fuel as [|fuel IH]; intros w Hrec.
  - exists w. simpl. split_and!; try done; lia.
  - destruct (prometheus_cycle_recoverable self w)
      as (w1 & Hcycle & Hd & Hp & Hs & Hh & Hout).
    { specialize (Hrec 0). rewrite Nat.add_0_r in Hrec. apply Hrec. lia. }
    destruct (IH w1) as (w' & Hloop & Hp' & Hs' & Hh' & Hout').
    { intros i Hi. rewrite Hd, Hp.
      replace (S (polls w) + i) with (polls w + S i) by lia.
      apply Hrec. lia. }
    exists w'. rewrite (while_true_step _ _ _ _ Hcycle).
    split_and!; [done|lia|lia|congruence|by etrans].
Qed.

Lemma run_prometheus_exporter_started self fuel w :
  has_prometheus_client w = true →
  http_bind_error w = None →
  run_prometheus_exporter fuel self w =
  match while_true fuel (prometheus_cycle self)
          (prometheus_started (prometheus_port self) w) with
  | (Raise e, w') =>
      if is_ImportError e
      then (print "Error: prometheus_client package is required for exporter mode.";;
            print "Please install it using: pip install prometheus_client";;
            sys_exit 1) w'
      else (Raise e, w')
  | r => r
  end.
Proof.
  intros Hlib Hbind.
  unfold run_prometheus_exporter, try_except, import_module, start_http_server.
  unfold mbind at 1 2 3, M_bind at 1 2 3, print at 1.
  rewrite Hlib, Hbind. reflexivity.
Qed.

(** X8: with the metrics library installed and the port free, the gauge
    driver binds the port, prints its start-up line and then loops for as
    long as the daemon answers or fails with API errors: after any number n
    of rounds it is still in the loop, has polled the daemon n times and
    slept 15 seconds after each round. *)
Theorem gauge_driver_keeps_running self fuel w :
  has_prometheus_client w = true →
  http_bind_error w = None →
  daemon_recoverable w fuel →
  ∃ w', run_prometheus_exporter fuel self w = (OutOfFuel, w')
    ∧ polls w' = polls w + fuel
    ∧ slept w' = slept w + 15 * fuel
    ∧ http_port w' = Some (prometheus_port self)
    ∧ (stdout w ++ ["Prometheus exporter started on port "
                    +:+ py_str (prometheus_port self)])
      `prefix_of` stdout w'.
Proof.
  intros Hlib Hbind Hrec.
  rewrite run_prometheus_exporter_started by done.
  destruct (prometheus_loop_keeps_running self fuel
              (prometheus_started (prometheus_port self) w) Hrec)
    as (w' & -> & Hp & Hs & Hh & Hout).
  by exists w'.
Qed.

Lemma gauge_driver_keeps_running_witness :
  let self := set_mode "prometheus" [("port", VInt 9100)] sample_collector in
  let w := sample_world
             (fun n => if decide (n = 1) then inl (APIError "500 Server Error")
                       else inr [sample_web; sample_db])
             (fun _ => None) in
  ∃ w', run_prometheus_exporter 3 self w = (OutOfFuel, w')
    ∧ polls w' = polls w + 3
    ∧ slept w' = slept w + 15 * 3
    ∧ http_port w' = Some (prometheus_port self)
    ∧ (stdout w ++ ["Prometheus exporter started on port "
                    +:+ py_str (prometheus_port self)])
      `prefix_of` stdout w'.
Proof.
  intros self w.
  apply (gauge_driver_keeps_running self 3 w).
  - reflexivity.
  - reflexivity.
  - intros i Hi.
    destruct i as [|[|[|i]]]; [exact I|reflexivity|exact I|simpl in Hi; lia].
Defined.

(** X9: without the metrics library the gauge driver prints its two lines of
    advice and exits with code 1; it binds no port and never queries the
    daemon. *)
Theorem gauge_driver_without_library self fuel w :
  has_prometheus_client w = false →
  run_prometheus_exporter fuel self w
  = (Raise (SystemExit 1),
     set_stdout
       (stdout w
        ++ ["Error: prometheus_client package is required for exporter mode.";
            "Please install it using: pip install prometheus_client"]) w).
Proof.
  intros Hlib. unfold run_prometheus_exporter, try_except, import_module.
  unfold mbind at 1, M_bind at 1. rewrite Hlib. simpl.
  unfold mbind, M_bind, print, sys_exit, raise. simpl.
  by rewrite <-app_assoc.
Qed.

Lemma gauge_driver_without_library_witness :
  let w := set_http_port None
             {| docker_list := sample_daemon; polls := 0; stdout := [];
                slept := 0; has_prometheus_client := false;
                has_influxdb_client := true; http_bind_error := None;
                http_port := None; metrics := ∅;
                influx_write := fun _ => None; written := [] |} in
  run_prometheus_exporter 3
    (set_mode "prometheus" [("port", VInt 9100)] sample_collector) w
  = (Raise (SystemExit 1),
     set_stdout
       (stdout w
        ++ ["Error: prometheus_client package is required for exporter mode.";
            "Please install it using: pip install prometheus_client"]) w).
Proof.
  intros w.
  apply (gauge_driver_without_library
           (set_mode "prometheus" [("port", VInt 9100)] sample_collector) 3 w).
  reflexivity.
Defined.

(** X10: when the port cannot be bound, the error of [start_http_server]
    leaves the gauge driver as it is: nothing is printed, the daemon is never
    queried, no round is run. *)
Theorem gauge_driver_bind_failure self fuel w e :
  has_prometheus_client w = true →
  http_bind_error w = Some e →
  is_ImportError e = false →
  run_prometheus_exporter fuel self w = (Raise e, w).
Proof.
  intros Hlib Hbind Himp.
  unfold run_prometheus_exporter, try_except, import_module, start_http_server.
  unfold mbind at 1 2, M_bind at 1 2. by rewrite Hlib, Hbind, Himp.
Qed.

Lemma gauge_driver_bind_failure_witness :
  let w := {| docker_list := sample_daemon; polls := 0; stdout := [];
              slept := 0; has_prometheus_client := true;
              has_influxdb_client := true;
              http_bind_error := Some (OSError "Address already in use");
              http_port := None; metrics := ∅;
              influx_write := fun _ => None; written := [] |} in
  run_prometheus_exporter 3
    (set_mode "prometheus" [("port", VInt 9100)] sample_collector) w
  = (Raise (OSError "Address already in use"), w).
Proof.
  intros w.
  apply (gauge_driver_bind_failure
           (set_mode "prometheus" [("port", VInt 9100)] sample_collector) 3 w
           (OSError "Address already in use"));
    reflexivity.
Defined.

(** X11: the gauge driver has no handler of its own for the daemon: if, after
    any number of complete rounds, the query fails with an error that is not
    an API error, the error ends the loop and the driver, and the table, which
    the round had already cleared, stays empty. *)
Theorem gauge_driver_ends_on_uncaught_error self k fuel w0 w e :
  has_prometheus_client w0 = true →
  http_bind_error w0 = None →
  cycles k (prometheus_cycle self)
    (prometheus_started (prometheus_port self) w0) = (Ok tt, w) →
  docker_list w (polls w) = inl e →
  is_APIError e = false →
  is_ImportError e = false →
  run_prometheus_exporter (k + S fuel) self w0
  = (Raise e, set_polls (S (polls w)) (set_metrics ∅ w)).
Proof.
  intros Hlib Hbind Hk Hq Hapi Himp.
  rewrite run_prometheus_exporter_started by done.
  rewrite (while_true_cycles _ _ _ _ _ Hk).
  rewrite (while_true_raise fuel _ w e (set_polls (S (polls w)) (set_metrics ∅ w))).
  - by rewrite Himp.
  - by rewrite prometheus_cycle_run, Hq, Hapi.
Qed.

Lemma gauge_driver_ends_on_uncaught_error_witness :
  let self := set_mode "prometheus" [("port", VInt 9100)] sample_collector in
  let w0 := sample_world
              (fun n => if decide (n = 1)
                        then inl (ConnectionError "Connection refused")
                        else inr [sample_web; sample_db])
              (fun _ => None) in
  let w := (cycles 1 (prometheus_cycle self)
              (prometheus_started (prometheus_port self) w0)).2 in
  run_prometheus_exporter (1 + 3) self w0
  = (Raise (ConnectionError "Connection refused"),
     set_polls (S (polls w)) (set_metrics ∅ w)).
Proof.
  intros self w0 w.
  apply (gauge_driver_ends_on_uncaught_error self 1 2 w0 w
           (ConnectionError "Connection refused"));
    reflexivity.
Defined.

(** ** The push driver, round after round *)

(** X12: a round of the push loop in which the daemon answers and the backend
    accepts every write sends exactly the points of the inventory, one write
    call each, in the order of the inventory, each with the bucket and the
    organization of the configuration, and then sleeps 15 seconds. *)
Theorem influx_round_writes_the_inventory self cfg bucket org cs w :
  influx_config self = Some cfg →
  Dict.get "bucket" cfg = Some bucket →
  Dict.get "org" cfg = Some org →
  docker_list w (polls w) = inr cs →
  (∀ i, i < length (points_of (collect self cs)) →
        influx_write w (length (written w) + i) = None) →
  influxdb_cycle self w
  = (Ok tt,
     set_slept (slept w + 15)
       (set_written
          (written w ++ requests_of bucket org (points_of (collect self cs)))
          (set_polls (S (polls w)) w))).
Proof.
  intros Hcfg Hbucket Horg Hq Hok. unfold influxdb_cycle.
  unfold mbind at 1, M_bind at 1. rewrite (resolver_run_ok _ _ _ Hq).
  unfold mbind, M_bind. rewrite write_points_flat.
  by rewrite (write_each_ok self cfg bucket org Hcfg Hbucket Horg).
Qed.

Lemma influx_round_writes_the_inventory_witness :
  let w := sample_world sample_daemon (fun _ => None) in
  influxdb_cycle sample_influx_collector w
  = (Ok tt,
     set_slept (slept w + 15)
       (set_written
          (written w
           ++ requests_of (VStr "b") (VStr "o")
                (points_of
                   (collect sample_influx_collector [sample_web; sample_db])))
          (set_polls (S (polls w)) w))).
Proof.
  intros w.
  apply (influx_round_writes_the_inventory sample_influx_collector
           sample_influx_config (VStr "b") (VStr "o")
           [sample_web; sample_db] w); reflexivity.
Defined.

(** X13: a round of the push loop in which the query fails with an API error
    prints the error, writes nothing, sleeps 15 seconds and returns, so the
    loop goes on. *)
Theorem influx_round_after_api_error self msg w :
  docker_list w (polls w) = inl (APIError msg) →
  influxdb_cycle self w
  = (Ok tt,
     set_slept (slept w + 15)
       (set_stdout (stdout w ++ ["Error accessing Docker API: " +:+ msg])
          (set_polls (S (polls w)) w)))
  ∧ written (influxdb_cycle self w).2 = written w.
Proof.
  intros Hq. unfold influxdb_cycle.
  unfold mbind at 1 3, M_bind at 1 3. rewrite resolver_run, Hq. by simpl.
Qed.

Lemma influx_round_after_api_error_witness :
  let w := sample_world (fun _ => inl (APIError "500 Server Error"))
             (fun _ => None) in
  influxdb_cycle sample_influx_collector w
  = (Ok tt,
     set_slept (slept w + 15)
       (set_stdout
          (stdout w ++ ["Error accessing Docker API: " +:+ "500 Server Error"])
          (set_polls (S (polls w)) w)))
  ∧ written (influxdb_cycle sample_influx_collector w).2 = written w.
Proof.
  intros w.
  apply (influx_round_after_api_error sample_influx_collector
           "500 Server Error" w).
  reflexivity.
Defined.

(** X14: without the InfluxDB client library the push driver prints its two
    lines of advice and exits with code 1; it reads no configuration, never
    queries the daemon and writes nothing. *)
Theorem influx_driver_without_library self fuel w :
  has_influxdb_client w = false →
  run_influxdb_exporter fuel self w
  = (Raise (SystemExit 1),
     set_stdout
       (stdout w
        ++ ["Error: influxdb-client package is required for InfluxDB mode.";
            "Please install it using: pip install influxdb-client"]) w).
Proof.
  intros Hlib. unfold run_influxdb_exporter, try_except, import_module.
  unfold mbind at 1, M_bind at 1. rewrite Hlib. simpl.
  unfold mbind, M_bind, print, sys_exit, raise. simpl.
  by rewrite <-app_assoc.
Qed.

Lemma influx_driver_without_library_witness :
  let w := {| docker_list := sample_daemon; polls := 0; stdout := [];
              slept := 0; has_prometheus_client := true;
              has_influxdb_client := false; http_bind_error := None;
              http_port := None; metrics := ∅;
              influx_write := fun _ => None; written := [] |} in
  run_influxdb_exporter 3 sample_influx_collector w
  = (Raise (SystemExit 1),
     set_stdout
       (stdout w
        ++ ["Error: influxdb-client package is required for InfluxDB mode.";
            "Please install it using: pip install influxdb-client"]) w).
Proof.
  intros w.
  apply (influx_driver_without_library sample_influx_collector 3 w).
  reflexivity.
Defined.

(** X15: [set_mode("influxdb", ...)] takes whatever keywords it is given; when
    there is no [url] among them, [run] raises [KeyError('url')] at the
    construction of the client, before anything is printed, queried or
    written. *)
Theorem influx_mode_without_url self kwargs fuel w :
  has_influxdb_client w = true →
  Dict.get "url" kwargs = None →
  run fuel (set_mode "influxdb" kwargs self) w = (Raise (KeyError "url"), w).
Proof.
  intros Hlib Hurl. unfold run, set_mode. simpl.
  unfold run_influxdb_exporter, try_except, import_module, subscript. simpl.
  unfold mbind at 1 2, M_bind at 1 2. by rewrite Hlib, Hurl.
Qed.

Lemma influx_mode_without_url_witness :
  run 3 (set_mode "influxdb" [] sample_collector)
    (sample_world sample_daemon (fun _ => None))
  = (Raise (KeyError "url"), sample_world sample_daemon (fun _ => None)).
Proof.
  apply (influx_mode_without_url sample_collector [] 3
           (sample_world sample_daemon (fun _ => None)));
    reflexivity.
Defined.

(** X16: the bucket is read at each write only.  With a configuration that has
    the URL, the token and the organization but no bucket, the push driver
    starts, prints its start-up line and queries the daemon; it raises
    [KeyError('bucket')] at the first point of the first non-empty inventory,
    before any write call. *)
Theorem influx_missing_bucket_found_at_first_point
    self cfg url token org fuel w cs p rest :
  has_influxdb_client w = true →
  influx_config self = Some cfg →
  Dict.get "url" cfg = Some url →
  Dict.get "token" cfg = Some token →
  Dict.get "org" cfg = Some org →
  Dict.get "bucket" cfg = None →
  docker_list w (polls w) = inr cs →
  points_of (collect self cs) = p :: rest →
  run_influxdb_exporter (S fuel) self w
  = (Raise (KeyError "bucket"),
     set_polls (S (polls w)) (influx_started url w)).
Proof.
  intros Hlib Hcfg Hurl Htoken Horg Hbucket Hq Hpts.
  rewrite (run_influxdb_exporter_started _ _ _ _ _ _ _
             Hlib Hcfg Hurl Htoken Horg).
  rewrite (while_true_raise fuel _ _ (KeyError "bucket")
             (set_polls (S (polls w)) (influx_started url w))); [done|].
  unfold influxdb_cycle. unfold mbind at 1, M_bind at 1.
  rewrite (resolver_run_ok _ _ cs) by done.
  unfold mbind at 1, M_bind at 1. rewrite write_points_flat, Hpts. simpl.
  unfold mbind at 1, M_bind at 1. unfold write_point, subscript.
  rewrite Hcfg, Hbucket. reflexivity.
Qed.

Lemma influx_missing_bucket_found_at_first_point_witness :
  let self := set_mode "influxdb"
                [("url", VStr "http://influx:8086"); ("token", VStr "t");
                 ("org", VStr "o")] sample_collector in
  let w := sample_world sample_daemon (fun _ => None) in
  run_influxdb_exporter (S 2) self w
  = (Raise (KeyError "bucket"),
     set_polls (S (polls w)) (influx_started (VStr "http://influx:8086") w)).
Proof.
  intros self w.
  apply (influx_missing_bucket_found_at_first_point self
           [("url", VStr "http://influx:8086"); ("token", VStr "t");
            ("org", VStr "o")]
           (VStr "http://influx:8086") (VStr "t") (VStr "o") 2 w
           [sample_web; sample_db]
           (make_point "web" "bridge"
              (make_attachment 0
                 [("IPAddress", "172.17.0.2"); ("MacAddress", "AA:BB")]))
           [make_point "web" "host"
              (make_attachment 1 [("Gateway", "10.0.0.1")])]);
    reflexivity.
Defined.

(** X17: the [except ImportError] of the push driver spans the whole loop: an
    [ImportError] raised by a write call, in any round, is reported with the
    two lines about the missing package, and the driver exits with code 1. *)
Theorem influx_import_error_in_write_exits
    self cfg url token org bucket k fuel w0 w cs pre p post msg :
  has_influxdb_client w0 = true →
  influx_config self = Some cfg →
  Dict.get "url" cfg = Some url →
  Dict.get "token" cfg = Some token →
  Dict.get "org" cfg = Some org →
  Dict.get "bucket" cfg = Some bucket →
  cycles k (influxdb_cycle self) (influx_started url w0) = (Ok tt, w) →
  docker_list w (polls w) = inr cs →
  points_of (collect self cs) = pre ++ p :: post →
  (∀ i, i < length pre → influx_write w (length (written w) + i) = None) →
  influx_write w (length (written w) + length pre) = Some (ImportError msg) →
  let w1 := set_written (written w ++ requests_of bucket org (pre ++ [p]))
              (set_polls (S (polls w)) w) in
  run_influxdb_exporter (k + S fuel) self w0
  = (Raise (SystemExit 1),
     set_stdout
       (stdout w1
        ++ ["Error: influxdb-client package is required for InfluxDB mode.";
            "Please install it using: pip install influxdb-client"]) w1).
Proof.
  intros Hlib Hcfg Hurl Htoken Horg Hbucket Hk Hq Hpts Hok Hfail w1.
  rewrite (run_influxdb_exporter_started _ _ _ _ _ _ _
             Hlib Hcfg Hurl Htoken Horg).
  rewrite (while_true_cycles _ _ _ _ _ Hk).
  rewrite (while_true_raise _ _ _ _ _
             (influxdb_cycle_write_failure self cfg bucket org
                Hcfg Hbucket Horg cs pre p post _ w Hq Hpts Hok Hfail)).
  simpl. unfold mbind, M_bind, print, sys_exit, raise. simpl.
  by rewrite <-app_assoc.
Qed.

Lemma influx_import_error_in_write_exits_witness :
  let w0 := sample_world sample_daemon
              (fun i => if decide (i = 0)
                        then Some (ImportError "No module named 'ciso8601'")
                        else None) in
  let p := make_point "web" "bridge"
             (make_attachment 0
                [("IPAddress", "172.17.0.2"); ("MacAddress", "AA:BB")]) in
  let w := influx_started (VStr "http://influx:8086") w0 in
  let w1 := set_written
              (written w ++ requests_of (VStr "b") (VStr "o") ([] ++ [p]))
              (set_polls (S (polls w)) w) in
  run_influxdb_exporter (0 + S 2) sample_influx_collector w0
  = (Raise (SystemExit 1),
     set_stdout
       (stdout w1
        ++ ["Error: influxdb-client package is required for InfluxDB mode.";
            "Please install it using: pip install influxdb-client"]) w1).
Proof.
  intros w0 p w.
  apply (influx_import_error_in_write_exits sample_influx_collector
           sample_influx_config (VStr "http://influx:8086") (VStr "t")
           (VStr "o") (VStr "b") 0 2 w0 w [sample_web; sample_db] [] p
           [make_point "web" "host"
              (make_attachment 1 [("Gateway", "10.0.0.1")])]
           "No module named 'ciso8601'");
    try reflexivity.
  intros i Hi. simpl in Hi. lia.
Defined.

(** ** main and set_mode *)

(** X18: with [--prometheus PORT] and a port other than 0, [main] runs the
    gauge driver on that port for the networks of the command line; the
    [--influxdb] flag and the environment are not looked at. *)
Theorem main_with_port_runs_gauge_driver fuel args environ w p :
  prometheus args = Some p →
  p ≠ 0%Z →
  main fuel args environ w
  = run_prometheus_exporter fuel
      {| network_names := networks args; mode := "prometheus";
         prometheus_port := VInt p; influx_config := None |} w.
Proof.
  intros Hp Hne. unfold main, port_given. rewrite Hp. simpl.
  destruct (Z.eqb_spec p 0) as [->|_]; [done|]. reflexivity.
Qed.

Lemma main_with_port_runs_gauge_driver_witness :
  main 2 {| networks := ["bridge"]; prometheus := Some 9100%Z;
            influxdb := true |}
    environ_without_credentials (sample_world sample_daemon (fun _ => None))
  = run_prometheus_exporter 2
      {| network_names := ["bridge"]; mode := "prometheus";
         prometheus_port := VInt 9100; influx_config := None |}
      (sample_world sample_daemon (fun _ => None)).
Proof.
  apply (main_with_port_runs_gauge_driver 2
           {| networks := ["bridge"]; prometheus := Some 9100%Z;
              influxdb := true |}
           environ_without_credentials
           (sample_world sample_daemon (fun _ => None)) 9100%Z).
  - reflexivity.
  - discriminate.
Defined.

(** X19: without [--influxdb], and without [--prometheus] or with
    [--prometheus 0] (the port 0 is falsy, so it counts as no port), [main]
    runs the local-once driver for the networks of the command line. *)
Theorem main_without_sink_runs_local_output fuel args environ w :
  prometheus args = None ∨ prometheus args = Some 0%Z →
  influxdb args = false →
  main fuel args environ w
  = run_local_output (new_collector (networks args)) w.
Proof.
  intros Hp Hflag. unfold main, port_given.
  by destruct Hp as [-> | ->]; rewrite Hflag.
Qed.

Lemma main_without_sink_runs_local_output_witness :
  main 2 {| networks := ["bridge"; "host"]; prometheus := Some 0%Z;
            influxdb := false |}
    environ_without_url (sample_world sample_daemon (fun _ => None))
  = run_local_output (new_collector ["bridge"; "host"])
      (sample_world sample_daemon (fun _ => None)).
Proof.
  apply (main_without_sink_runs_local_output 2
           {| networks := ["bridge"; "host"]; prometheus := Some 0%Z;
              influxdb := false |}
           environ_without_url (sample_world sample_daemon (fun _ => None))).
  - by right.
  - reflexivity.
Defined.

(** X20: with [--influxdb] and the three credentials set (an empty value
    counts as set), [main] runs the push driver with the configuration read
    from the environment; the URL is the value of [INFLUXDB_URL], or
    [http://localhost:8086] without it. *)
Theorem main_with_credentials_runs_push_driver
    fuel args environ w token org bucket :
  port_given (prometheus args) = false →
  influxdb args = true →
  environ !! "INFLUXDB_TOKEN" = Some token →
  environ !! "INFLUXDB_ORG" = Some org →
  environ !! "INFLUXDB_BUCKET" = Some bucket →
  main fuel args environ w
  = run_influxdb_exporter fuel
      {| network_names := networks args; mode := "influxdb";
         prometheus_port := VNone;
         influx_config :=
           Some [("url",
                  VStr (default "http://localhost:8086"
                          (environ !! "INFLUXDB_URL")));
                 ("token", VStr token); ("org", VStr org);
                 ("bucket", VStr bucket)] |} w.
Proof.
  intros Hport Hflag Htoken Horg Hbucket. unfold main.
  rewrite Hport, Hflag. cbv zeta. rewrite missing_vars_env.
  unfold unset_keys, required_env. rewrite !filter_cons, filter_nil. simpl.
  rewrite Htoken, Horg, Hbucket. simpl.
  unfold influx_config_of_env, getenv, getenv_default.
  by rewrite Htoken, Horg, Hbucket.
Qed.

Lemma main_with_credentials_runs_push_driver_witness :
  main 2 sample_influx_args environ_without_url
    (sample_world sample_daemon (fun _ => None))
  = run_influxdb_exporter 2
      {| network_names := networks sample_influx_args; mode := "influxdb";
         prometheus_port := VNone;
         influx_config :=
           Some [("url",
                  VStr (default "http://localhost:8086"
                          (environ_without_url !! "INFLUXDB_URL")));
                 ("token", VStr "t"); ("org", VStr "o");
                 ("bucket", VStr "b")] |}
      (sample_world sample_daemon (fun _ => None)).
Proof.
  apply (main_with_credentials_runs_push_driver 2 sample_influx_args
           environ_without_url (sample_world sample_daemon (fun _ => None))
           "t" "o" "b"); reflexivity.
Defined.

(** X21: [set_mode] never resets what an earlier call stored for the other
    variant: after "prometheus" then "influxdb" the collector is in mode
    "influxdb" and still has the port of the first call, and the other way
    round it is in mode "prometheus" and still has the configuration; a mode
    that is neither then changes the mode alone.  The same call twice is the
    same as once. *)
Theorem set_mode_keeps_earlier_settings self k1 k2 m :
  (let s := set_mode "influxdb" k2 (set_mode "prometheus" k1 self) in
   mode s = "influxdb"
   ∧ prometheus_port s = default VNone (Dict.get "port" k1)
   ∧ influx_config s = Some k2)
  ∧ (let s := set_mode "prometheus" k1 (set_mode "influxdb" k2 self) in
     mode s = "prometheus"
     ∧ prometheus_port s = default VNone (Dict.get "port" k1)
     ∧ influx_config s = Some k2)
  ∧ set_mode m k1 (set_mode m k1 self) = set_mode m k1 self.
Proof.
  split_and!; try done.
  unfold set_mode. by repeat case_decide.
Qed.

Lemma influxdb_cycle_recoverable self cfg bucket org w :
  influx_config self = Some cfg →
  Dict.get "bucket" cfg = Some bucket →
  Dict.get "org" cfg = Some org →
  (∀ n, influx_write w n = None) →
  match docker_list w (polls w) with
  | inr _ => True
  | inl e => is_APIError e = true
  end →
  ∃ w', influxdb_cycle self w = (Ok tt, w')
    ∧ docker_list w' = docker_list w
    ∧ influx_write w' = influx_write w
    ∧ polls w' = S (polls w)
    ∧ slept w' = slept w + 15
    ∧ stdout w `prefix_of` stdout w'.
Proof.
  intros Hcfg Hbucket Horg Hok Hq. unfold influxdb_cycle.
  unfold mbind at 1, M_bind at 1. rewrite resolver_run. cbv zeta.
  destruct (docker_list w (polls w)) as [e|cs].
  - rewrite Hq. eexists. split; [reflexivity|]. simpl.
    split_and!; try done. by apply prefix_app_r.
  - unfold mbind, M_bind. rewrite write_points_flat.
    rewrite (write_each_ok self cfg bucket org Hcfg Hbucket Horg)
      by (intros; apply Hok).
    eexists. split; [reflexivity|]. by simpl.
Qed.

Lemma influxdb_loop_keeps_running self cfg bucket org fuel w :
  influx_config self = Some cfg →
  Dict.get "bucket" cfg = Some bucket →
  Dict.get "org" cfg = Some org →
  (∀ n, influx_write w n = None) →
  daemon_recoverable w fuel →
  ∃ w', while_true fuel (influxdb_cycle self) w = (OutOfFuel, w')
    ∧ polls w' = polls w + fuel
    ∧ slept w' = slept w + 15 * fuel
    ∧ stdout w `prefix_of` stdout w'.
Proof.
  intros Hcfg Hbucket Horg. revert w.
  induction fuel as [|fuel IH]; intros w Hok Hrec.
  - exists w. simpl. split_and!; [done|lia..|done].
  - destruct (influxdb_cycle_recoverable self cfg bucket org w)
      as (w1 & Hcycle & Hd & Hw & Hp & Hs & Hout); [done..| |].
    { specialize (Hrec 0). rewrite Nat.add_0_r in Hrec. apply Hrec. lia. }
    destruct (IH w1) as (w' & Hloop & Hp' & Hs' & Hout').
    { intros n. rewrite Hw. apply Hok. }
    { intros i Hi. rewrite Hd, Hp.
      replace (S (polls w) + i) with (polls w + S i) by lia.
      apply Hrec. lia. }
    exists w'. rewrite (while_true_step _ _ _ _ Hcycle).
    split_and!; [done|lia..|by etrans].
Qed.

(** X22: with the client library installed and a complete configuration, the
    push driver prints its start-up line and then loops for as long as the
    backend accepts the writes and the daemon answers or fails with API
    errors: after any number n of rounds it is still in the loop, has polled
    the daemon n times and slept 15 seconds after each round. *)
Theorem push_driver_keeps_running self cfg url token org bucket fuel w :
  has_influxdb_client w = true →
  influx_config self = Some cfg →
  Dict.get "url" cfg = Some url →
  Dict.get "token" cfg = Some token →
  Dict.get "org" cfg = Some org →
  Dict.get "bucket" cfg = Some bucket →
  (∀ n, influx_write w n = None) →
  daemon_recoverable w fuel →
  ∃ w', run_influxdb_exporter fuel self w = (OutOfFuel, w')
    ∧ polls w' = polls w + fuel
    ∧ slept w' = slept w + 15 * fuel
    ∧ (stdout w ++ ["InfluxDB exporter started, writing to " +:+ py_str url])
      `prefix_of` stdout w'.
Proof.
  intros Hlib Hcfg Hurl Htoken Horg Hbucket Hok Hrec.
  rewrite (run_influxdb_exporter_started _ _ _ _ _ _ _
             Hlib Hcfg Hurl Htoken Horg).
  destruct (influxdb_loop_keeps_running self cfg bucket org fuel
              (influx_started url w) Hcfg Hbucket Horg Hok Hrec)
    as (w' & -> & Hp & Hs & Hout).
  by exists w'.
Qed.

Lemma push_driver_keeps_running_witness :
  let w := sample_world
             (fun n => if decide (n = 1) then inl (APIError "500 Server Error")
                       else inr [sample_web; sample_db])
             (fun _ => None) in
  ∃ w', run_influxdb_exporter 3 sample_influx_collector w = (OutOfFuel, w')
    ∧ polls w' = polls w + 3
    ∧ slept w' = slept w + 15 * 3
    ∧ (stdout w ++ ["InfluxDB exporter started, writing to "
                    +:+ py_str (VStr "http://influx:8086")])
      `prefix_of` stdout w'.
Proof.
  intros w.
  apply (push_driver_keeps_running sample_influx_collector sample_influx_config
           (VStr "http://influx:8086") (VStr "t") (VStr "o") (VStr "b") 3 w);
    try reflexivity.
  intros i Hi.
  destruct i as [|[|[|i]]]; [exact I|reflexivity|exact I|simpl in Hi; lia].
Defined.
